(** * The King Lear "madness score" service ([app.py])

    A shallow embedding of the Flask application: the scene store
    ([load_scene_text]), the prompt construction and provider call
    ([analyze_with_gpt]) and the two JSON endpoints ([api_analyze],
    [api_scene]), followed by the properties of the specification.

    Python values are embedded as data, exceptions and side effects
    through a small exception-and-log monad, and everything that lives
    outside the process (the file system, the LLM provider, the JSON
    parser applied to the provider's answer) is a field of a [world]
    record, so that the theorems hold for every behaviour of the
    environment. *)

From Stdlib Require Import ZArith List String Ascii Bool Lia.
From Stdlib Require Import Strings.Byte.
Import ListNotations.
Local Open Scope Z_scope.
Set Warnings "-register-all".

(** ** Python strings and bytes *)

Module Py.

(** A Python [str] is a sequence of Unicode code points. *)
Definition str := list Z.

Definition byte_val (b : byte) : Z := Z.of_N (Byte.to_N b).

Definition continuation (b : Z) : bool := (0x80 <=? b) && (b <=? 0xBF).

Definition cons_opt (c : Z) (r : option str) : option str :=
  match r with Some s => Some (c :: s) | None => None end.

(** [bytes.decode("utf-8")] with the default strict error handler:
    shortest form only, no surrogates, nothing above U+10FFFF.
    [None] stands for [UnicodeDecodeError]. *)
Fixpoint utf8_decode (bs : list byte) : option str :=
  match bs with
  | [] => Some []
  | x0 :: t0 =>
    let b0 := byte_val x0 in
    if b0 <? 0x80 then cons_opt b0 (utf8_decode t0)
    else if (0xC2 <=? b0) && (b0 <=? 0xDF) then
      match t0 with
      | x1 :: t1 =>
        let b1 := byte_val x1 in
        if continuation b1
        then cons_opt ((b0 - 0xC0) * 64 + (b1 - 0x80)) (utf8_decode t1)
        else None
      | _ => None
      end
    else if (0xE0 <=? b0) && (b0 <=? 0xEF) then
      match t0 with
      | x1 :: x2 :: t2 =>
        let b1 := byte_val x1 in
        let b2 := byte_val x2 in
        let c := (b0 - 0xE0) * 4096 + (b1 - 0x80) * 64 + (b2 - 0x80) in
        if continuation b1 && continuation b2 && (0x800 <=? c)
           && negb ((0xD800 <=? c) && (c <=? 0xDFFF))
        then cons_opt c (utf8_decode t2)
        else None
      | _ => None
      end
    else if (0xF0 <=? b0) && (b0 <=? 0xF4) then
      match t0 with
      | x1 :: x2 :: x3 :: t3 =>
        let b1 := byte_val x1 in
        let b2 := byte_val x2 in
        let b3 := byte_val x3 in
        let c := (b0 - 0xF0) * 262144 + (b1 - 0x80) * 4096
                 + (b2 - 0x80) * 64 + (b3 - 0x80) in
        if continuation b1 && continuation b2 && continuation b3
           && (0x10000 <=? c) && (c <=? 0x10FFFF)
        then cons_opt c (utf8_decode t3)
        else None
      | _ => None
      end
    else None
  end.

(** [str.encode("utf-8")], as the byte values. *)
Definition utf8_encode_char (c : Z) : list Z :=
  if c <? 0x80 then [c]
  else if c <? 0x800 then [0xC0 + c / 64; 0x80 + c mod 64]
  else if c <? 0x10000 then
    [0xE0 + c / 4096; 0x80 + (c / 64) mod 64; 0x80 + c mod 64]
  else [0xF0 + c / 262144; 0x80 + (c / 4096) mod 64;
        0x80 + (c / 64) mod 64; 0x80 + c mod 64].

Definition utf8_encode (s : str) : list Z := flat_map utf8_encode_char s.

(** A source literal: the text of a Rocq string read as UTF-8, as the
    Python source file is. *)
Definition u (s : string) : str :=
  match utf8_decode (list_byte_of_string s) with
  | Some cs => cs
  | None => []
  end.

(** The double quote character, U+0022. *)
Definition dq : str := [34].

Fixpoint str_eqb (a b : str) : bool :=
  match a, b with
  | [], [] => true
  | x :: a', y :: b' => (x =? y) && str_eqb a' b'
  | _, _ => false
  end.

(** [str.isspace] on one code point: the characters [str.strip()]
    removes (Unicode White_Space plus the ASCII separators 1C-1F). *)
Definition isspace (c : Z) : bool :=
  ((0x09 <=? c) && (c <=? 0x0D)) || ((0x1C <=? c) && (c <=? 0x20))
  || (c =? 0x85) || (c =? 0xA0) || (c =? 0x1680)
  || ((0x2000 <=? c) && (c <=? 0x200A))
  || (c =? 0x2028) || (c =? 0x2029) || (c =? 0x202F)
  || (c =? 0x205F) || (c =? 0x3000).

Fixpoint lstrip (s : str) : str :=
  match s with
  | [] => []
  | c :: t => if isspace c then lstrip t else s
  end.

Definition rstrip (s : str) : str := rev (lstrip (rev s)).

(** [s.strip()] *)
Definition strip (s : str) : str := rstrip (lstrip s).

(** [sep.join(items)] *)
Fixpoint join (sep : str) (items : list str) : str :=
  match items with
  | [] => []
  | [x] => x
  | x :: rest => x ++ sep ++ join sep rest
  end.

(** Text-mode reading with [newline=None] (the default of [open] and
    of [Path.read_text]): every CR LF and every lone CR becomes LF. *)
Fixpoint universal_newlines (s : str) : str :=
  match s with
  | [] => []
  | c :: t =>
    if c =? 13 then
      10 :: match t with
            | [] => []
            | c' :: t' =>
              if c' =? 10 then universal_newlines t' else universal_newlines t
            end
    else c :: universal_newlines t
  end.

(** ** Python values

    The values that [json.loads] produces and [jsonify] accepts.  A
    float is kept as its IEEE 754 binary64 bit pattern; a dict as an
    association list read from the front. *)
Inductive value : Type :=
| VNone
| VBool (b : bool)
| VInt (z : Z)
| VFloat (bits : Z)
| VStr (s : str)
| VList (l : list value)
| VDict (d : list (str * value)).

(** Truth value of an object, as tested by [if x:] and [not x]. *)
Definition truthy (v : value) : bool :=
  match v with
  | VNone => false
  | VBool b => b
  | VInt z => negb (z =? 0)
  | VFloat bits => negb (Z.land bits 0x7FFFFFFFFFFFFFFF =? 0)
  | VStr s => match s with [] => false | _ => true end
  | VList l => match l with [] => false | _ => true end
  | VDict d => match d with [] => false | _ => true end
  end.

Fixpoint assoc {A : Type} (k : str) (d : list (str * A)) : option A :=
  match d with
  | [] => None
  | (k', v) :: rest => if str_eqb k k' then Some v else assoc k rest
  end.

Definition is_dict (v : value) : bool :=
  match v with VDict _ => true | _ => false end.

End Py.

(** ** [pathlib] on POSIX

    A path object keeps the text it was built from; its root and parts
    are obtained by parsing that text, as [PurePosixPath] does. *)

Module Pathlib.
Import Py.

Definition sep : Z := 47.

Definition startswith_sep (s : str) : bool :=
  match s with c :: _ => c =? sep | [] => false end.

Definition endswith_sep (s : str) : bool := startswith_sep (rev s).

(** [posixpath.join(a, b)] *)
Definition posix_join (a b : str) : str :=
  if startswith_sep b then b
  else match a with
       | [] => b
       | _ => if endswith_sep a then a ++ b else a ++ [sep] ++ b
       end.

(** [s.split("/")] *)
Fixpoint split_sep (s : str) : list str :=
  match s with
  | [] => [[]]
  | c :: t =>
    if c =? sep then [] :: split_sep t
    else match split_sep t with
         | [] => [[c]]
         | h :: r => (c :: h) :: r
         end
  end.

(** [posixpath.splitroot]: no leading slash, no root; exactly two
    leading slashes are kept as a root of their own. *)
Definition splitroot (p : str) : str * str :=
  match p with
  | c0 :: t0 =>
    if c0 =? sep then
      match t0 with
      | c1 :: t1 =>
        if c1 =? sep then
          match t1 with
          | c2 :: _ => if c2 =? sep then ([sep], t0) else ([sep; sep], t1)
          | [] => ([sep; sep], t1)
          end
        else ([sep], t0)
      | [] => ([sep], t0)
      end
    else ([], p)
  | [] => ([], p)
  end.

Definition dot : str := [46].
Definition dotdot : str := [46; 46].

Definition keep_part (x : str) : bool :=
  match x with [] => false | _ => negb (str_eqb x dot) end.

Record PosixPath : Type := { raw : str }.

(** [Path(s)] *)
Definition Path (s : str) : PosixPath := {| raw := s |}.

(** [p / key] *)
Definition truediv (p : PosixPath) (key : str) : PosixPath :=
  {| raw := posix_join (raw p) key |}.

Definition root (p : PosixPath) : str := fst (splitroot (raw p)).

(** The parsed tail: empty components and [.] are dropped, [..] is kept. *)
Definition parts (p : PosixPath) : list str :=
  filter keep_part (split_sep (snd (splitroot (raw p)))).

(** [str(p)] *)
Definition to_str (p : PosixPath) : str :=
  match root p ++ join [sep] (parts p) with
  | [] => dot
  | s => s
  end.

(** [os.path.normpath] on the parts of a relative path: the location
    the path names, counted from the working directory.  The first
    component is the number of levels above the working directory. *)
Fixpoint normalize (up : nat) (seen : list str) (ps : list str)
  : nat * list str :=
  match ps with
  | [] => (up, rev seen)
  | p :: rest =>
    if str_eqb p dotdot then
      match seen with
      | [] => normalize (S up) [] rest
      | _ :: seen' => normalize up seen' rest
      end
    else normalize up (p :: seen) rest
  end.

Definition location (p : PosixPath) : nat * list str :=
  normalize 0 [] (parts p).

End Pathlib.

(** ** The file system

    A tree of directories and regular files (no links, no permission
    bits).  A path is resolved component by component, as the kernel
    does, so [..] needs the directory before it to exist. *)

Module FS.
Import Py Pathlib.

Inductive node : Type :=
| File (data : list byte)
| Dir (entries : list (str * node)).

(** [walk up cur ps] follows the components [ps] from the directory
    [cur], whose ancestors are [up] (nearest first), and yields the
    node reached together with its ancestors.  [..] at the top of the
    tree stays there; a component below a regular file is an error. *)
Fixpoint walk (up : list node) (cur : node) (ps : list str)
  : option (list node * node) :=
  match ps with
  | [] => Some (up, cur)
  | p :: rest =>
    match cur with
    | File _ => None
    | Dir entries =>
      if str_eqb p dotdot then
        match up with
        | [] => walk [] cur rest
        | parent :: up' => walk up' parent rest
        end
      else
        match assoc p entries with
        | Some n => walk (cur :: up) n rest
        | None => None
        end
    end
  end.

Record filesystem : Type := {
  fs_root : node;        (* the tree below / *)
  cwd : list str         (* the working directory of the process *)
}.

(** The error numbers of Linux that matter here, and its limits on the
    length in bytes of one name and of a whole path. *)
Definition EBADF : Z := 9.
Definition ENOENT : Z := 2.
Definition ENOTDIR : Z := 20.
Definition ENAMETOOLONG : Z := 36.
Definition ELOOP : Z := 40.
Definition NAME_MAX : Z := 255.
Definition PATH_MAX : Z := 4096.

(** The length of a text once encoded for the kernel. *)
Definition byte_length (s : str) : Z := Z.of_nat (List.length (utf8_encode s)).

(** The error of a walk that fails: a component below a regular file
    is [ENOTDIR]; a name that is not in its directory is [ENOENT], or
    [ENAMETOOLONG] when it is longer than a name may be. *)
Fixpoint walk_errno (up : list node) (cur : node) (ps : list str) : Z :=
  match ps with
  | [] => ENOENT
  | p :: rest =>
    match cur with
    | File _ => ENOTDIR
    | Dir entries =>
      if str_eqb p dotdot then
        match up with
        | [] => walk_errno [] cur rest
        | parent :: up' => walk_errno up' parent rest
        end
      else
        match assoc p entries with
        | Some n => walk_errno (cur :: up) n rest
        | None => if NAME_MAX <? byte_length p then ENAMETOOLONG else ENOENT
        end
    end
  end.

(** What [os.stat] does with a path: it finds a node, fails with an
    error number, or refuses a text that holds a NUL character. *)
Inductive stat_result : Type :=
| Found (n : node)
| Errno (e : Z)
| NulCharacter.

(** [os.stat(p)]: the text of the path is checked first (no NUL, less
    than [PATH_MAX] bytes), then it is walked, a relative path from
    the working directory, an absolute one from the root. *)
Definition stat (fs : filesystem) (p : PosixPath) : stat_result :=
  if existsb (Z.eqb 0) (to_str p) then NulCharacter
  else if PATH_MAX <=? byte_length (to_str p) then Errno ENAMETOOLONG
  else
    match root p with
    | [] =>
      match walk [] (fs_root fs) (cwd fs) with
      | Some (up, dir) =>
        match walk up dir (parts p) with
        | Some (_, n) => Found n
        | None => Errno (walk_errno up dir (parts p))
        end
      | None => Errno ENOENT
      end
    | _ =>
      match walk [] (fs_root fs) (parts p) with
      | Some (_, n) => Found n
      | None => Errno (walk_errno [] (fs_root fs) (parts p))
      end
    end.

(** What [os.stat] finds at a path, if it finds something. *)
Definition lookup (fs : filesystem) (p : PosixPath) : option node :=
  match stat fs p with
  | Found n => Some n
  | _ => None
  end.

(** The errors that [Path.exists] takes for an answer (pathlib's
    [_IGNORED_ERRNOS]). *)
Definition ignored_errno (e : Z) : bool :=
  (e =? ENOENT) || (e =? ENOTDIR) || (e =? EBADF) || (e =? ELOOP).

(** Whether the operating system reports that nothing is at the path:
    the cases in which [Path.exists] returns [False]. *)
Definition missing (fs : filesystem) (p : PosixPath) : bool :=
  match stat fs p with
  | Found _ => false
  | Errno e => ignored_errno e
  | NulCharacter => true
  end.

End FS.

(** ** Exceptions, side effects and the environment *)

Module Runtime.
Import Py Pathlib FS.

Inductive exn : Type :=
| BadRequest                      (* werkzeug: the body is not JSON *)
| AttributeError
| TypeError
| IndexError
| JSONDecodeError
| UnicodeDecodeError
| IsADirectoryError
| FileNotFoundError (msg : str)
| OSError (errno : Z)             (* an [OSError] of no finer class *)
| ValueError
| RecursionError
| APIError.                       (* anything the provider client raises *)

(** [isinstance(e, FileNotFoundError)] *)
Definition is_FileNotFoundError (e : exn) : option str :=
  match e with FileNotFoundError msg => Some msg | _ => None end.

(** The keyword arguments of [client.chat.completions.create]. *)
Record chat_request : Type := {
  model : str;
  messages : list (str * str);        (* role, content *)
  response_format : str;              (* the value of the "type" key *)
  temperature : str                   (* the literal of the source *)
}.

(** What the provider call yields: an exception, or a completion with
    the [message.content] of each of its choices. *)
Inductive completion : Type :=
| Raises
| Choices (contents : list (option str)).

(** What a request leaves behind it: a call to the provider, a line
    printed on the server. *)
Inductive event : Type :=
| Called (r : chat_request)
| Printed (label : str) (e : exn).

Record world : Type := {
  files : filesystem;
  chat_completions_create : chat_request -> completion;
  json_loads : str -> option value;   (* [None]: [JSONDecodeError] *)
  format_object : value -> str        (* [str(v)] of a non-str *)
}.

Inductive outcome (A : Type) : Type :=
| Ret (a : A)
| Raise (e : exn).
Arguments Ret {A} a.
Arguments Raise {A} e.

(** A computation threads the log of events and ends in a value or an
    exception. *)
Definition M (A : Type) : Type := list event -> outcome A * list event.

Definition ret {A} (a : A) : M A := fun log => (Ret a, log).

Definition raise {A} (e : exn) : M A := fun log => (Raise e, log).

Definition bind {A B} (m : M A) (k : A -> M B) : M B :=
  fun log =>
    match m log with
    | (Ret a, log') => k a log'
    | (Raise e, log') => (Raise e, log')
    end.

Definition emit (ev : event) : M unit := fun log => (Ret tt, log ++ [ev]).

(** [try: m  except Exception as e: h e] *)
Definition try_except {A} (m : M A) (h : exn -> M A) : M A :=
  fun log =>
    match m log with
    | (Ret a, log') => (Ret a, log')
    | (Raise e, log') => h e log'
    end.

Definition of_option {A} (o : option A) (e : exn) : M A :=
  match o with Some a => ret a | None => raise e end.

End Runtime.

Declare Scope py_scope.
Delimit Scope py_scope with py.
Notation "x <- m ;; k" := (Runtime.bind m (fun x => k))
  (at level 61, m at next level, right associativity) : py_scope.
Notation "m ;;; k" := (Runtime.bind m (fun _ => k))
  (at level 61, right associativity) : py_scope.

(** ** Methods of the Python objects the handlers use *)

Module Builtins.
Import Py Pathlib FS Runtime.
Local Open Scope py_scope.

(** [obj.get(key, default)]: only a dict has the method. *)
Definition get (obj : value) (key : str) (default : value) : M value :=
  match obj with
  | VDict d => ret (match assoc key d with Some v => v | None => default end)
  | _ => raise AttributeError
  end.

(** [obj.strip()]: only a str has the method. *)
Definition strip_method (obj : value) : M str :=
  match obj with
  | VStr s => ret (strip s)
  | _ => raise AttributeError
  end.

(** The replacement field [{v}] of an f-string. *)
Definition format (w : world) (v : value) : str :=
  match v with
  | VStr s => s
  | _ => format_object w v
  end.

(** [path.exists()]: [os.stat] is tried; an error among the ignored
    ones and the [ValueError] of a NUL character answer [False], any
    other [OSError] is raised again. *)
Definition exists_ (w : world) (p : PosixPath) : M bool :=
  match stat (files w) p with
  | Found _ => ret true
  | NulCharacter => ret false
  | Errno e => if ignored_errno e then ret false else raise (OSError e)
  end.

(** [path.read_text(encoding="utf-8")]: the file is opened in text
    mode, decoded as UTF-8 and its newlines are translated. *)
Definition read_text (w : world) (p : PosixPath) : M str :=
  match stat (files w) p with
  | Found (File data) =>
    match utf8_decode data with
    | Some s => ret (universal_newlines s)
    | None => raise UnicodeDecodeError
    end
  | Found (Dir _) => raise IsADirectoryError
  | NulCharacter => raise ValueError
  | Errno e =>
    if e =? ENOENT
    then raise (FileNotFoundError
                  (u "[Errno 2] No such file or directory: '"
                   ++ to_str p ++ u "'"))
    else raise (OSError e)
  end.

(** [json.loads(content)]; [content] may be [None], which is not a str. *)
Definition loads (w : world) (content : option str) : M value :=
  match content with
  | None => raise TypeError
  | Some s => of_option (json_loads w s) JSONDecodeError
  end.

(** [client.chat.completions.create(...)] *)
Definition create (w : world) (r : chat_request) : M (list (option str)) :=
  emit (Called r) ;;;
  match chat_completions_create w r with
  | Raises => raise APIError
  | Choices cs => ret cs
  end.

(** [print(label, e)] *)
Definition print (label : str) (e : exn) : M unit := emit (Printed label e).

End Builtins.

(** ** The application ([app.py]) *)

Module App.
Import Py Pathlib FS Runtime Builtins.
Local Open Scope py_scope.

Definition SCENE_DIR : str := u "scenes".

(** The text of the f-string before [{context_str}]. *)
Definition prompt_opening : str :=
  u "
You are a literary critic and linguistics assistant analyzing **psychological madness** in Shakespeare's *King Lear*.

".

(** The text between [{context_str}] and the quoted passage. *)
Definition prompt_rubric : str :=
  u "
Your job is to rate the **mental / emotional disturbance of the speaker**, not just how broken the syntax looks.

Key idea:
- In *King Lear*, a speaker can sound controlled, formal, and rhetorically polished **and still be very mad** if their judgment is warped, cruel, impulsive, or detached from reality.
- If you recognize Lear speaking (e.g. dividing the kingdom, cursing his daughters, raging in the storm, or philosophizing on the heath), you should usually assign a **high madness_score**, often 70+.
- Storm / heath / hut scenes in Acts 3–4 where Lear's mind openly unravels can deserve **very high** scores (80–100).
- Other characters (Cordelia, Kent, etc.) can have low scores if they sound clear, grounded, and compassionate.

You will output:
1. An overall **madness_score** (0–100), where:
   - 0 = mentally stable, balanced, clear judgment
   - 100 = extremely disturbed, unstable, or unmoored

2. Three sub-scores in [0,1] that *explain* the flavor of madness.
   They are interpretive dimensions, not strict mathematical measures:

- semantic_disorganization:
  * Higher = bigger jumps in thought, conflicting images, weak logical progression.
  * For controlled but mad Lear, this can still be moderate–high (e.g. 0.5–0.8) if the content is emotionally or morally deranged.

- graph_randomness:
  * Higher = more tangled flow of ideas, looping back, abrupt transitions, or piling up of images.

- lexical_weirdness:
  * Higher = strange or theatrical pronoun use, vocatives, curses, heavy questions/exclamations, and emotionally charged diction.

Use your knowledge of the play and of Lear's arc. The numbers are just a way to encode your critical judgment.

Now analyze this passage:

".

(** The text after the quoted passage. *)
Definition prompt_closing : str :=
    u "

Return ONLY a JSON object with these keys:
- " ++ dq ++
    u "madness_score" ++ dq ++
    u " (number 0–100)
- " ++ dq ++
    u "semantic_disorganization" ++ dq ++
    u " (number 0–1)
- " ++ dq ++
    u "graph_randomness" ++ dq ++
    u " (number 0–1)
- " ++ dq ++
    u "lexical_weirdness" ++ dq ++
    u " (number 0–1)
- " ++ dq ++
    u "comment" ++ dq ++
    u " (short 1–3 sentence explanation)
".

Definition nl : str := [10].

(** The local [filename] of [load_scene_text]. *)
Definition filename (w : world) (act scene : value) : str :=
  u "lear_act" ++ format w act ++ u "_scene" ++ format w scene ++ u ".txt".

(** The local [path] of [load_scene_text]. *)
Definition path (w : world) (act scene : value) : PosixPath :=
  truediv (Path SCENE_DIR) (filename w act scene).

Definition load_scene_text (w : world) (act scene : value) : M str :=
  let path := path w act scene in
  found <- exists_ w path ;;
  if negb found
  then raise (FileNotFoundError (u "No scene file: " ++ to_str path))
  else read_text w path.

(** The local [context_bits] of [analyze_with_gpt]. *)
Definition context_bits (w : world) (act scene : value) : list str :=
  (if truthy act then [u "Act " ++ format w act] else [])
  ++ (if truthy scene then [u "Scene " ++ format w scene] else []).

(** The local [context_str] of [analyze_with_gpt]. *)
Definition context_str (w : world) (act scene : value) : str :=
  match context_bits w act scene with
  | [] => []
  | bits =>
    u "Context: this passage is from King Lear, "
    ++ join (u ", ") bits ++ u "." ++ nl
  end.

(** The local [prompt] of [analyze_with_gpt]. *)
Definition prompt (w : world) (text : str) (act scene : value) : str :=
  prompt_opening ++ context_str w act scene ++ prompt_rubric
  ++ dq ++ dq ++ dq ++ text ++ dq ++ dq ++ dq ++ prompt_closing.

(** The request [analyze_with_gpt] sends for a prompt. *)
Definition completion_request (prompt : str) : chat_request :=
  {| model := u "gpt-4.1-mini";
     messages := [(u "user", prompt)];
     response_format := u "json_object";
     temperature := u "0.4" |}.

Definition analyze_with_gpt (w : world) (text : str) (act scene : value)
  : M value :=
  let prompt := prompt w text act scene in
  choices <- create w (completion_request prompt) ;;
  content <- of_option (nth_error choices 0) IndexError ;;
  data <- loads w content ;;
  ret data.

(** What a view function returns: [jsonify(body), status]. *)
Record response : Type := { body : value; status : Z }.

Definition jsonify (v : value) (code : Z) : response :=
  {| body := v; status := code |}.

Definition error_body (msg : str) : value := VDict [(u "error", VStr msg)].

(** What the JSON parser makes of the body of a request: it is not
    JSON; or it is JSON for a value and is parsed; or it is JSON for a
    value but nested deeper than the interpreter's recursion limit
    allows at that moment, and the parser gives up. *)
Inductive body_parse : Type :=
| NotJson
| Parsed (v : value)
| TooDeep (v : value).

(** The Flask request as the views see it: the body as the parser
    takes it, and the query string. *)
Record Request : Type := {
  json_parse : body_parse;
  args : list (str * str)
}.

(** The value [request.get_json(force=True)] returns, when it returns. *)
Definition json_body (request : Request) : option value :=
  match json_parse request with
  | Parsed v => Some v
  | _ => None
  end.


(** [request.get_json(force=True)]: the [ValueError] of the parser is
    turned into werkzeug's [BadRequest]; its [RecursionError] is not a
    [ValueError] and goes through. *)
Definition get_json (request : Request) : M value :=
  match json_parse request with
  | Parsed v => ret v
  | NotJson => raise BadRequest
  | TooDeep _ => raise RecursionError
  end.

(** [request.args.get(key)] *)
Definition args_get (request : Request) (key : str) : value :=
  match assoc key (args request) with
  | Some s => VStr s
  | None => VNone
  end.

Definition api_analyze (w : world) (request : Request) : M response :=
  payload <- get_json request ;;
  found <- get payload (u "text") (VStr []) ;;
  text <- strip_method found ;;
  if negb (truthy (VStr text))
  then ret (jsonify (error_body (u "No text provided.")) 400)
  else
    act <- get payload (u "act") VNone ;;
    scene <- get payload (u "scene") VNone ;;
    try_except
      (result <- analyze_with_gpt w text act scene ;;
       ret (jsonify result 200))
      (fun e =>
         print (u "Error calling GPT:") e ;;;
         ret (jsonify (error_body (u "GPT analysis failed.")) 500)).

Definition api_scene (w : world) (request : Request) : M response :=
  let act := args_get request (u "act") in
  let scene := args_get request (u "scene") in
  if negb (truthy act) || negb (truthy scene)
  then ret (jsonify (error_body (u "act and scene are required")) 400)
  else
    try_except
      (text <- load_scene_text w act scene ;;
       ret (jsonify (VDict [(u "text", VStr text)]) 200))
      (fun e =>
         match is_FileNotFoundError e with
         | Some msg => ret (jsonify (error_body msg) 404)
         | None =>
           print (u "Error loading scene:") e ;;;
           ret (jsonify (error_body (u "Failed to load scene")) 500)
         end).

(** What Flask sends to the client for the outcome of a view: the
    JSON response the view returned, or its own HTML error page when
    the view raised (the page of the [HTTPException], else a 500). *)
Inductive reply : Type :=
| JsonReply (code : Z) (v : value)
| HtmlReply (code : Z).

Definition respond (o : outcome response) : reply :=
  match o with
  | Ret r => JsonReply (status r) (body r)
  | Raise BadRequest => HtmlReply 400
  | Raise _ => HtmlReply 500
  end.

Definition is_json (r : reply) : bool :=
  match r with JsonReply _ _ => true | HtmlReply _ => false end.

(** The context line for the given identifiers, as the statements
    below write it. *)
Definition context_line (bits : str) : str :=
  u "Context: this passage is from King Lear, " ++ bits ++ u "." ++ nl.

(** [d.get(key)] on the entries of a dict, [None] for a missing key. *)
Definition field (d : list (str * value)) (key : str) : value :=
  match assoc key d with Some v => v | None => VNone end.

(** Whether a relative path names something below the scenes
    directory, once its [..] components are resolved. *)
Definition under_scenes (p : PosixPath) : bool :=
  match root p, location p with
  | [], (O, d :: _ :: _) => str_eqb d SCENE_DIR
  | _, _ => false
  end.

(** A request served from an empty log. *)
Definition serve (view : world -> Request -> M response)
  (w : world) (request : Request) : reply :=
  respond (fst (view w request [])).

End App.

(** ** A concrete deployment

    A small file system and a provider with a canned answer, on which
    the handlers can be run. *)

Module Demo.
Import Py Pathlib FS Runtime Builtins App.

Definition crlf_scene : list byte :=
  list_byte_of_string "Blow, winds" ++ [x0d; x0a]
  ++ list_byte_of_string "and crack your cheeks!".

Definition cr_scene : list byte :=
  list_byte_of_string "Howl, howl" ++ [x0d] ++ list_byte_of_string "howl!".

Definition lf_scene : list byte :=
  list_byte_of_string "Nothing will come of nothing.
Speak again.".

Definition secret : list byte := list_byte_of_string "not a scene".

(** /srv is the working directory; /srv/scenes holds three scenes and
    an empty directory [lear_act]; /srv/other_scene1.txt is a file next
    to the scenes directory. *)
Definition tree : node :=
  Dir [(u "srv",
        Dir [(u "scenes",
              Dir [(u "lear_act1_scene1.txt", File lf_scene);
                   (u "lear_act3_scene2.txt", File crlf_scene);
                   (u "lear_act5_scene3.txt", File cr_scene);
                   (u "lear_act", Dir [])]);
             (u "other_scene1.txt", File secret)])].

Definition disk : filesystem := {| fs_root := tree; cwd := [u "srv"] |}.

(** [json.loads] on the two texts the examples use: an empty array and
    an object with a score. *)
Definition array_text : str := u "[]".

Definition object_text : str :=
  u "{" ++ dq ++ u "madness_score" ++ dq ++ u ": 85}".

Definition loads_table (s : str) : option value :=
  if str_eqb s array_text then Some (VList [])
  else if str_eqb s object_text
       then Some (VDict [(u "madness_score", VInt 85)])
       else None.

(** [str(v)] of the constants. *)
Definition format_constant (v : value) : str :=
  match v with
  | VNone => u "None"
  | VBool true => u "True"
  | VBool false => u "False"
  | _ => []
  end.

(** The deployment whose provider answers every request with one
    choice of the given content. *)
Definition answering (content : option str) : world :=
  {| files := disk;
     chat_completions_create := fun _ => Choices [content];
     json_loads := loads_table;
     format_object := format_constant |}.

Definition post (payload : value) : Request :=
  {| json_parse := Parsed payload; args := [] |}.

Definition query (a s : str) : Request :=
  {| json_parse := NotJson; args := [(u "act", a); (u "scene", s)] |}.

End Demo.

(** ** A deployment with faults

    A flat scenes directory holding one readable scene and one file
    that is not UTF-8, and a provider whose client raises. *)

Module Faulty.
Import Py Pathlib FS Runtime Builtins App.

Definition garbled : list byte := [xff; xfe; x4c; x65; x61; x72].

Definition tree : node :=
  Dir [(u "srv",
        Dir [(u "scenes",
              Dir [(u "lear_act1_scene1.txt", File Demo.lf_scene);
                   (u "lear_act2_scene2.txt", File garbled)]);
             (u "other_scene1.txt", File Demo.secret)])].

Definition disk : filesystem := {| fs_root := tree; cwd := [u "srv"] |}.

(** The entries of /srv/scenes. *)
Definition scenes_entries : list (str * node) :=
  [(u "lear_act1_scene1.txt", File Demo.lf_scene);
   (u "lear_act2_scene2.txt", File garbled)].

Definition raising : world :=
  {| files := disk;
     chat_completions_create := fun _ => Raises;
     json_loads := Demo.loads_table;
     format_object := Demo.format_constant |}.

(** An identifier of three hundred letters. *)
Definition long_name : str := repeat 97 300.



End Faulty.

(** * Properties *)

(** ** Strings: UTF-8, newlines, stripping *)

Module PyFacts.
Import Py.

Lemma str_eqb_eq (a b : str) : str_eqb a b = true <-> a = b.
Proof.
  revert b. induction a as [|x a IH]; intros [|y b]; simpl;
    try (split; [discriminate|discriminate]); [tauto|].
  rewrite andb_true_iff, Z.eqb_eq, IH. split.
  - intros [-> ->]. reflexivity.
  - intros H. inversion H. auto.
Qed.

Lemma byte_val_range (b : byte) : 0 <= byte_val b < 256.
Proof.
  unfold byte_val. pose proof (Byte.to_N_bounded b). lia.
Qed.

Lemma utf8_decode_cons (x0 : byte) (t0 : list byte) :
  utf8_decode (x0 :: t0) =
  let b0 := byte_val x0 in
  if b0 <? 0x80 then cons_opt b0 (utf8_decode t0)
  else if (0xC2 <=? b0) && (b0 <=? 0xDF) then
    match t0 with
    | x1 :: t1 =>
      let b1 := byte_val x1 in
      if continuation b1
      then cons_opt ((b0 - 0xC0) * 64 + (b1 - 0x80)) (utf8_decode t1)
      else None
    | _ => None
    end
  else if (0xE0 <=? b0) && (b0 <=? 0xEF) then
    match t0 with
    | x1 :: x2 :: t2 =>
      let b1 := byte_val x1 in
      let b2 := byte_val x2 in
      let c := (b0 - 0xE0) * 4096 + (b1 - 0x80) * 64 + (b2 - 0x80) in
      if continuation b1 && continuation b2 && (0x800 <=? c)
         && negb ((0xD800 <=? c) && (c <=? 0xDFFF))
      then cons_opt c (utf8_decode t2)
      else None
    | _ => None
    end
  else if (0xF0 <=? b0) && (b0 <=? 0xF4) then
    match t0 with
    | x1 :: x2 :: x3 :: t3 =>
      let b1 := byte_val x1 in
      let b2 := byte_val x2 in
      let b3 := byte_val x3 in
      let c := (b0 - 0xF0) * 262144 + (b1 - 0x80) * 4096
               + (b2 - 0x80) * 64 + (b3 - 0x80) in
      if continuation b1 && continuation b2 && continuation b3
         && (0x10000 <=? c) && (c <=? 0x10FFFF)
      then cons_opt c (utf8_decode t3)
      else None
    | _ => None
    end
  else None.
Proof. reflexivity. Qed.

Lemma cons_opt_Some c r s :
  cons_opt c r = Some s -> exists s', r = Some s' /\ s = c :: s'.
Proof.
  destruct r as [s'|]; simpl; intros H; [|discriminate].
  inversion H. eauto.
Qed.

(** Boolean tests of the decoder, turned into arithmetic. *)
Ltac bools :=
  repeat match goal with
  | H : _ && _ = true |- _ => apply andb_true_iff in H; destruct H
  | H : negb _ = true |- _ => apply negb_true_iff in H
  | H : _ && _ = false |- _ => apply andb_false_iff in H
  | H : (_ <=? _) = true |- _ => apply Z.leb_le in H
  | H : (_ <=? _) = false |- _ => apply Z.leb_gt in H
  | H : (_ <? _) = true |- _ => apply Z.ltb_lt in H
  | H : (_ <? _) = false |- _ => apply Z.ltb_ge in H
  | H : (_ =? _) = true |- _ => apply Z.eqb_eq in H
  | H : (_ =? _) = false |- _ => apply Z.eqb_neq in H
  end.

Ltac encode_char :=
  unfold utf8_encode_char;
  repeat match goal with
  | |- context [?a <? ?b] =>
    let E := fresh "E" in
    destruct (a <? b) eqn:E; bools; try lia
  end;
  repeat f_equal; Z.to_euclidean_division_equations; lia.

(** What the strict decoder accepts, the encoder gives back. *)
Lemma utf8_encode_decode_bounded (n : nat) :
  forall data s, (List.length data <= n)%nat ->
    utf8_decode data = Some s -> utf8_encode s = map byte_val data.
Proof.
  induction n as [|n IH]; intros data s Hlen H.
  - destruct data; [|simpl in Hlen; lia]. inversion H. reflexivity.
  - destruct data as [|x0 t0]; [inversion H; reflexivity|].
    rewrite utf8_decode_cons in H. cbv zeta in H.
    pose proof (byte_val_range x0) as R0.
    simpl in Hlen.
    destruct (byte_val x0 <? 0x80) eqn:E1.
    { apply cons_opt_Some in H. destruct H as (s' & Hd & ->).
      apply IH in Hd; [|lia].
      change (utf8_encode (byte_val x0 :: s'))
        with (utf8_encode_char (byte_val x0) ++ utf8_encode s').
      rewrite Hd. simpl. f_equal.
      unfold utf8_encode_char. rewrite E1. reflexivity. }
    destruct ((0xC2 <=? byte_val x0) && (byte_val x0 <=? 0xDF)) eqn:E2.
    { destruct t0 as [|x1 t1]; [discriminate|].
      pose proof (byte_val_range x1) as R1.
      destruct (continuation (byte_val x1)) eqn:C1; [|discriminate].
      apply cons_opt_Some in H. destruct H as (s' & Hd & ->).
      simpl in Hlen. apply IH in Hd; [|lia].
      unfold continuation in C1. bools.
      match goal with
      | |- utf8_encode (?c :: s') = _ =>
        change (utf8_encode (c :: s')) with (utf8_encode_char c ++ utf8_encode s');
        assert (utf8_encode_char c = [byte_val x0; byte_val x1]) as ->
          by encode_char
      end.
      rewrite Hd. reflexivity. }
    destruct ((0xE0 <=? byte_val x0) && (byte_val x0 <=? 0xEF)) eqn:E3.
    { destruct t0 as [|x1 [|x2 t2]]; try discriminate.
      pose proof (byte_val_range x1) as R1.
      pose proof (byte_val_range x2) as R2.
      match type of H with
      | (if ?c then _ else _) = _ => destruct c eqn:C; [|discriminate]
      end.
      apply cons_opt_Some in H. destruct H as (s' & Hd & ->).
      simpl in Hlen. apply IH in Hd; [|lia].
      unfold continuation in C. bools.
      match goal with
      | |- utf8_encode (?c :: s') = _ =>
        change (utf8_encode (c :: s')) with (utf8_encode_char c ++ utf8_encode s');
        assert (utf8_encode_char c = [byte_val x0; byte_val x1; byte_val x2])
          as -> by encode_char
      end.
      rewrite Hd. reflexivity. }
    destruct ((0xF0 <=? byte_val x0) && (byte_val x0 <=? 0xF4)) eqn:E4;
      [|discriminate].
    destruct t0 as [|x1 [|x2 [|x3 t3]]]; try discriminate.
    pose proof (byte_val_range x1) as R1.
    pose proof (byte_val_range x2) as R2.
    pose proof (byte_val_range x3) as R3.
    match type of H with
    | (if ?c then _ else _) = _ => destruct c eqn:C; [|discriminate]
    end.
    apply cons_opt_Some in H. destruct H as (s' & Hd & ->).
    simpl in Hlen. apply IH in Hd; [|lia].
    unfold continuation in C. bools.
    match goal with
    | |- utf8_encode (?c :: s') = _ =>
      change (utf8_encode (c :: s')) with (utf8_encode_char c ++ utf8_encode s');
      assert (utf8_encode_char c
              = [byte_val x0; byte_val x1; byte_val x2; byte_val x3])
        as -> by encode_char
    end.
    rewrite Hd. reflexivity.
Qed.

Lemma utf8_encode_decode data s :
  utf8_decode data = Some s -> utf8_encode s = map byte_val data.
Proof. apply (utf8_encode_decode_bounded (List.length data)). lia. Qed.

(** An ASCII character of the decoded text is a byte of the data. *)
Lemma utf8_decode_ascii_bounded (n : nat) :
  forall data s c, (List.length data <= n)%nat ->
    utf8_decode data = Some s -> c < 0x80 -> In c s ->
    In c (map byte_val data).
Proof.
  induction n as [|n IH]; intros data s c Hlen H Hc Hin.
  - destruct data; [|simpl in Hlen; lia]. inversion H; subst. destruct Hin.
  - destruct data as [|x0 t0]; [inversion H; subst; destruct Hin|].
    rewrite utf8_decode_cons in H. cbv zeta in H.
    pose proof (byte_val_range x0) as R0.
    simpl in Hlen.
    destruct (byte_val x0 <? 0x80) eqn:E1.
    { apply cons_opt_Some in H. destruct H as (s' & Hd & ->).
      destruct Hin as [<-|Hin]; [now left|].
      right. apply (IH t0 s'); auto; lia. }
    destruct ((0xC2 <=? byte_val x0) && (byte_val x0 <=? 0xDF)) eqn:E2.
    { destruct t0 as [|x1 t1]; [discriminate|].
      pose proof (byte_val_range x1) as R1.
      destruct (continuation (byte_val x1)) eqn:C1; [|discriminate].
      apply cons_opt_Some in H. destruct H as (s' & Hd & ->).
      simpl in Hlen. unfold continuation in C1. bools.
      destruct Hin as [<-|Hin]; [lia|].
      right; right. apply (IH t1 s'); auto; lia. }
    destruct ((0xE0 <=? byte_val x0) && (byte_val x0 <=? 0xEF)) eqn:E3.
    { destruct t0 as [|x1 [|x2 t2]]; try discriminate.
      match type of H with
      | (if ?c then _ else _) = _ => destruct c eqn:C; [|discriminate]
      end.
      apply cons_opt_Some in H. destruct H as (s' & Hd & ->).
      simpl in Hlen. bools.
      destruct Hin as [<-|Hin]; [lia|].
      right; right; right. apply (IH t2 s'); auto; lia. }
    destruct ((0xF0 <=? byte_val x0) && (byte_val x0 <=? 0xF4)) eqn:E4;
      [|discriminate].
    destruct t0 as [|x1 [|x2 [|x3 t3]]]; try discriminate.
    match type of H with
    | (if ?c then _ else _) = _ => destruct c eqn:C; [|discriminate]
    end.
    apply cons_opt_Some in H. destruct H as (s' & Hd & ->).
    simpl in Hlen. bools.
    destruct Hin as [<-|Hin]; [lia|].
    right; right; right; right. apply (IH t3 s'); auto; lia.
Qed.

Lemma utf8_decode_ascii data s c :
  utf8_decode data = Some s -> c < 0x80 -> In c s ->
  In c (map byte_val data).
Proof. apply (utf8_decode_ascii_bounded (List.length data)). lia. Qed.

Lemma not_In_forallb (c : Z) (l : list Z) :
  forallb (fun x => negb (x =? c)) l = true -> ~ In c l.
Proof.
  induction l as [|x l IH]; simpl; [tauto|].
  rewrite andb_true_iff, negb_true_iff, Z.eqb_neq. intros [Hx Hl] [->|Hin].
  - apply Hx. reflexivity.
  - now apply IH.
Qed.

(** Newline translation leaves a text without carriage return as it is. *)
Lemma universal_newlines_no_cr (s : str) :
  ~ In 13 s -> universal_newlines s = s.
Proof.
  induction s as [|c t IH]; intros Hn; [reflexivity|].
  cbn [universal_newlines].
  destruct (c =? 13) eqn:E.
  - apply Z.eqb_eq in E. subst. exfalso. apply Hn. now left.
  - f_equal. apply IH. intros Hin. apply Hn. now right.
Qed.

Lemma lstrip_blank (s : str) : lstrip s = [] <-> forallb isspace s = true.
Proof.
  induction s as [|c t IH]; simpl; [tauto|].
  destruct (isspace c); simpl; [exact IH|].
  split; discriminate.
Qed.

Lemma lstrip_head (s : str) :
  match lstrip s with [] => True | c :: _ => isspace c = false end.
Proof.
  induction s as [|c t IH]; simpl; [exact I|].
  destruct (isspace c) eqn:E; [exact IH|exact E].
Qed.

Lemma forallb_rev {A} (f : A -> bool) (l : list A) :
  forallb f (rev l) = forallb f l.
Proof.
  induction l as [|x l IH]; [reflexivity|].
  simpl. rewrite forallb_app, IH. simpl.
  rewrite andb_true_r. apply andb_comm.
Qed.

(** [s.strip()] is empty exactly when [s] is empty or all whitespace. *)
Lemma strip_blank (s : str) : strip s = [] <-> forallb isspace s = true.
Proof.
  unfold strip, rstrip. split.
  - intros H.
    assert (lstrip (rev (lstrip s)) = []) as H1.
    { destruct (lstrip (rev (lstrip s))) as [|c l]; [reflexivity|].
      simpl in H. apply app_eq_nil in H. destruct H; discriminate. }
    apply lstrip_blank in H1. rewrite forallb_rev in H1.
    pose proof (lstrip_head s) as Hh.
    destruct (lstrip s) as [|c t] eqn:E.
    + now apply lstrip_blank.
    + simpl in H1. rewrite Hh in H1. discriminate.
  - intros H. apply lstrip_blank in H. rewrite H. reflexivity.
Qed.

End PyFacts.

(** ** Paths and the file system *)

Module PathFacts.
Import Py Pathlib FS.

Lemma split_sep_plain (y : str) : ~ In sep y -> split_sep y = [y].
Proof.
  induction y as [|c t IH]; intros Hn; [reflexivity|].
  simpl. destruct (c =? sep) eqn:E.
  - apply Z.eqb_eq in E. exfalso. apply Hn. now left.
  - rewrite IH; [reflexivity|]. intros Hin. apply Hn. now right.
Qed.

Lemma split_sep_app (x y : str) :
  ~ In sep x -> split_sep (x ++ sep :: y) = x :: split_sep y.
Proof.
  induction x as [|c t IH]; intros Hn.
  - reflexivity.
  - simpl. destruct (c =? sep) eqn:E.
    + apply Z.eqb_eq in E. exfalso. apply Hn. now left.
    + rewrite IH; [reflexivity|]. intros Hin. apply Hn. now right.
Qed.

(** Walking a path in two stages. *)
Lemma walk_app (ps qs : list str) :
  forall up cur,
    walk up cur (ps ++ qs) =
    match walk up cur ps with
    | Some (up', cur') => walk up' cur' qs
    | None => None
    end.
Proof.
  induction ps as [|p ps IH]; intros up cur; [reflexivity|].
  simpl. destruct cur as [data|entries]; [reflexivity|].
  destruct (str_eqb p dotdot).
  - destruct up; apply IH.
  - destruct (assoc p entries); [apply IH|reflexivity].
Qed.

End PathFacts.

(** ** The scene store *)

Import Py Pathlib FS Runtime Builtins App PyFacts PathFacts.
Local Open Scope py_scope.

Lemma raw_path (w : world) (a s : str) :
  raw (path w (VStr a) (VStr s))
  = u "scenes/lear_act" ++ a ++ u "_scene" ++ s ++ u ".txt".
Proof. reflexivity. Qed.

Lemma lookup_stat (fs : filesystem) (p : PosixPath) (n : node) :
  lookup fs p = Some n <-> stat fs p = Found n.
Proof.
  unfold lookup. destruct (stat fs p); split; congruence.
Qed.

(** Every outcome of [load_scene_text], by what [os.stat] does. *)
Lemma load_scene_text_by_stat w act scene log :
  load_scene_text w act scene log =
  match stat (files w) (path w act scene) with
  | Found (File data) =>
    match utf8_decode data with
    | Some t => (Ret (universal_newlines t), log)
    | None => (Raise UnicodeDecodeError, log)
    end
  | Found (Dir _) => (Raise IsADirectoryError, log)
  | NulCharacter =>
    (Raise (FileNotFoundError
              (u "No scene file: " ++ to_str (path w act scene))), log)
  | Errno e =>
    if ignored_errno e
    then (Raise (FileNotFoundError
                   (u "No scene file: " ++ to_str (path w act scene))), log)
    else (Raise (OSError e), log)
  end.
Proof.
  unfold load_scene_text, exists_, read_text, bind.
  destruct (stat (files w) (path w act scene)) as [[data|entries]|e|];
    try reflexivity.
  - simpl. destruct (utf8_decode data); reflexivity.
  - destruct (ignored_errno e); reflexivity.
Qed.

Lemma load_scene_text_found w act scene data t log :
  lookup (files w) (path w act scene) = Some (File data) ->
  utf8_decode data = Some t ->
  load_scene_text w act scene log = (Ret (universal_newlines t), log).
Proof.
  intros Hl Hd. apply lookup_stat in Hl.
  rewrite load_scene_text_by_stat, Hl, Hd. reflexivity.
Qed.

Lemma load_scene_text_missing w act scene log :
  missing (files w) (path w act scene) = true ->
  load_scene_text w act scene log
  = (Raise (FileNotFoundError
              (u "No scene file: " ++ to_str (path w act scene))), log).
Proof.
  intros Hm. rewrite load_scene_text_by_stat. unfold missing in Hm.
  destruct (stat (files w) (path w act scene)) as [n|e|];
    [discriminate Hm| |reflexivity].
  rewrite Hm. reflexivity.
Qed.

Lemma load_scene_text_present w act scene log :
  missing (files w) (path w act scene) = false ->
  forall msg,
    fst (load_scene_text w act scene log) <> Raise (FileNotFoundError msg).
Proof.
  intros Hm msg. rewrite load_scene_text_by_stat. unfold missing in Hm.
  destruct (stat (files w) (path w act scene)) as [[data|entries]|e|];
    [| | |discriminate Hm].
  - destruct (utf8_decode data); simpl; discriminate.
  - simpl. discriminate.
  - rewrite Hm. simpl. discriminate.
Qed.

(** The decoded text encodes back to the bytes of the file, and a
    file without carriage return is read as it is. *)
Lemma text_mode_exact data t :
  utf8_decode data = Some t ->
  utf8_encode t = map byte_val data
  /\ (~ In 13 (map byte_val data) -> universal_newlines t = t).
Proof.
  intros Hd. split.
  - now apply utf8_encode_decode.
  - intros Hn. apply universal_newlines_no_cr. intros Hin. apply Hn.
    apply (utf8_decode_ascii data t 13 Hd); [lia|exact Hin].
Qed.

Ltac literal l :=
  let v := eval vm_compute in (u l) in change (u l) with v in *.

Lemma to_str_scenes_file (f : str) :
  ~ In sep f -> f <> [] -> f <> dot ->
  to_str {| raw := u "scenes" ++ [sep] ++ f |} = u "scenes" ++ [sep] ++ f.
Proof.
  intros Hsep Hne Hdot. unfold to_str, root, parts. cbn [raw].
  literal "scenes"%string.
  assert (keep_part f = true) as Hk.
  { unfold keep_part. destruct f as [|c t]; [congruence|].
    destruct (str_eqb (c :: t) dot) eqn:E; [|reflexivity].
    apply str_eqb_eq in E. congruence. }
  cbn [splitroot app Z.eqb Pos.eqb sep fst snd].
  change (115 :: 99 :: 101 :: 110 :: 101 :: 115 :: sep :: f)
    with ([115; 99; 101; 110; 101; 115] ++ sep :: f).
  rewrite split_sep_app.
  - rewrite (split_sep_plain f Hsep). cbn [filter].
    rewrite Hk. reflexivity.
  - unfold sep. simpl. intuition lia.
Qed.

Lemma to_str_path_plain (w : world) (a s : str) :
  ~ In sep a -> ~ In sep s ->
  to_str (path w (VStr a) (VStr s))
  = SCENE_DIR ++ u "/lear_act" ++ a ++ u "_scene" ++ s ++ u ".txt".
Proof.
  intros Ha Hs.
  pose proof (to_str_scenes_file
                (u "lear_act" ++ a ++ u "_scene" ++ s ++ u ".txt")) as H.
  unfold path, truediv, Path, filename, format, SCENE_DIR.
  cbn [raw].
  change (posix_join (u "scenes")
            (u "lear_act" ++ a ++ u "_scene" ++ s ++ u ".txt"))
    with (u "scenes" ++ [sep]
            ++ (u "lear_act" ++ a ++ u "_scene" ++ s ++ u ".txt")).
  rewrite H.
  - reflexivity.
  - rewrite !in_app_iff. unfold sep in *. literal "lear_act"%string.
    literal "_scene"%string. literal ".txt"%string. simpl. intuition lia.
  - literal "lear_act"%string. discriminate.
  - literal "lear_act"%string. unfold dot. discriminate.
Qed.

(** C4, as amended.  For identifier strings [a] and [s],
    [load_scene_text] builds the path from the text
    scenes/lear_act<a>_scene<s>.txt; when a regular file with valid
    UTF-8 contents is found there it returns the text of the file:
    the text [t] whose UTF-8 encoding is the contents, with every CR LF
    and lone CR turned into LF, hence [t] itself when the contents hold
    no carriage return; and it raises [FileNotFoundError] exactly when
    the operating system reports that nothing is at the path (a name
    or path it refuses as too long is another failure). *)
Theorem load_scene_text_spec (w : world) (a s : str) (log : list event) :
  let p := path w (VStr a) (VStr s) in
  raw p = SCENE_DIR ++ u "/lear_act" ++ a ++ u "_scene" ++ s ++ u ".txt"
  /\ (forall data t,
        lookup (files w) p = Some (File data) ->
        utf8_decode data = Some t ->
        load_scene_text w (VStr a) (VStr s) log
        = (Ret (universal_newlines t), log)
        /\ utf8_encode t = map byte_val data
        /\ (~ In 13 (map byte_val data) -> universal_newlines t = t))
  /\ ((exists msg, fst (load_scene_text w (VStr a) (VStr s) log)
                   = Raise (FileNotFoundError msg))
      <-> missing (files w) p = true).
Proof.
  intros p. split; [reflexivity|]. split.
  - intros data t Hl Hd. split.
    + exact (load_scene_text_found w _ _ data t log Hl Hd).
    + now apply text_mode_exact.
  - split.
    + intros [msg Hm].
      destruct (missing (files w) p) eqn:Hl; [reflexivity|].
      exfalso. exact (load_scene_text_present w _ _ log Hl msg Hm).
    + intros Hl. eexists.
      rewrite (load_scene_text_missing w _ _ log Hl). reflexivity.
Qed.

Lemma load_scene_text_spec_witness :
  load_scene_text (Demo.answering None) (VStr (u "1")) (VStr (u "1")) []
  = (Ret (u "Nothing will come of nothing." ++ nl ++ u "Speak again."), [])
  /\ utf8_encode (u "Nothing will come of nothing." ++ nl ++ u "Speak again.")
     = map byte_val Demo.lf_scene.
Proof.
  pose proof (load_scene_text_spec (Demo.answering None) (u "1") (u "1") [])
    as [_ [Hfile _]].
  destruct (Hfile Demo.lf_scene
              (u "Nothing will come of nothing." ++ nl ++ u "Speak again.")
              eq_refl eq_refl) as (Hret & Hbytes & Hsame).
  split.
  - rewrite Hret, Hsame; [reflexivity|].
    apply not_In_forallb. vm_compute. reflexivity.
  - exact Hbytes.
Defined.

(** C4, as stated, fails on a file with a carriage return: the file
    is there, and what [load_scene_text] returns is not its contents. *)
Lemma load_scene_text_alters_carriage_return :
  lookup (files (Demo.answering None))
         (path (Demo.answering None) (VStr (u "5")) (VStr (u "3")))
  = Some (File Demo.cr_scene)
  /\ load_scene_text (Demo.answering None) (VStr (u "5")) (VStr (u "3")) []
     = (Ret (u "Howl, howl" ++ nl ++ u "howl!"), [])
  /\ utf8_encode (u "Howl, howl" ++ nl ++ u "howl!")
     <> map byte_val Demo.cr_scene.
Proof.
  split; [reflexivity|]. split; [reflexivity|].
  vm_compute. discriminate.
Qed.

(** ** GET /api/scene *)

(** A request whose query gives [act] and [scene] non-empty values. *)
Section Supplied.
Variables (w : world) (request : Request) (a s : str).
Hypothesis Hact : assoc (u "act") (args request) = Some a.
Hypothesis Hscene : assoc (u "scene") (args request) = Some s.
Hypothesis Ha : a <> [].
Hypothesis Hs : s <> [].

Lemma api_scene_outcome (log : list event) :
  api_scene w request log =
  match load_scene_text w (VStr a) (VStr s) log with
  | (Ret text, log') =>
    (Ret (jsonify (VDict [(u "text", VStr text)]) 200), log')
  | (Raise e, log') =>
    match is_FileNotFoundError e with
    | Some msg => (Ret (jsonify (error_body msg) 404), log')
    | None =>
      (Ret (jsonify (error_body (u "Failed to load scene")) 500),
       log' ++ [Printed (u "Error loading scene:") e])
    end
  end.
Proof.
  unfold api_scene, args_get. rewrite Hact, Hscene.
  destruct a as [|ca a']; [congruence|].
  destruct s as [|cs s']; [congruence|].
  cbn [truthy negb orb]. unfold try_except, bind.
  destruct (load_scene_text w (VStr (ca :: a')) (VStr (cs :: s')) log)
    as [[text|e] log']; [reflexivity|].
  destruct (is_FileNotFoundError e); reflexivity.
Qed.

Lemma api_scene_found (data : list byte) (t : str) (log : list event) :
  lookup (files w) (path w (VStr a) (VStr s)) = Some (File data) ->
  utf8_decode data = Some t ->
  api_scene w request log
  = (Ret (jsonify (VDict [(u "text", VStr (universal_newlines t))]) 200), log).
Proof.
  intros Hl Hd. rewrite api_scene_outcome.
  rewrite (load_scene_text_found w _ _ data t log Hl Hd). reflexivity.
Qed.

Lemma api_scene_not_found (log : list event) :
  missing (files w) (path w (VStr a) (VStr s)) = true ->
  api_scene w request log
  = (Ret (jsonify
            (error_body (u "No scene file: "
                         ++ to_str (path w (VStr a) (VStr s)))) 404), log).
Proof.
  intros Hl. rewrite api_scene_outcome.
  rewrite (load_scene_text_missing w _ _ log Hl). reflexivity.
Qed.

End Supplied.

(** C3, as amended.  For an existing scene file with valid UTF-8
    contents, GET /api/scene with the matching non-empty [act] and
    [scene] returns 200 and the body {text: t'}, where t' is the text
    [t] whose UTF-8 encoding is the contents, with every CR LF and lone
    CR turned into LF; when the contents hold no carriage return, t' is
    [t]: the contents, byte for byte. *)
Theorem api_scene_serves_file w request a s data t log :
  assoc (u "act") (args request) = Some a ->
  assoc (u "scene") (args request) = Some s ->
  a <> [] -> s <> [] ->
  lookup (files w) (path w (VStr a) (VStr s)) = Some (File data) ->
  utf8_decode data = Some t ->
  api_scene w request log
  = (Ret (jsonify (VDict [(u "text", VStr (universal_newlines t))]) 200), log)
  /\ utf8_encode t = map byte_val data
  /\ (~ In 13 (map byte_val data) -> universal_newlines t = t).
Proof.
  intros Ha Hs Hane Hsne Hl Hd. split.
  - exact (api_scene_found w request a s Ha Hs Hane Hsne data t log Hl Hd).
  - now apply text_mode_exact.
Qed.

Lemma api_scene_serves_file_witness :
  api_scene (Demo.answering None) (Demo.query (u "1") (u "1")) []
  = (Ret (jsonify
            (VDict [(u "text",
                     VStr (u "Nothing will come of nothing." ++ nl
                             ++ u "Speak again."))]) 200), [])
  /\ utf8_encode (u "Nothing will come of nothing." ++ nl ++ u "Speak again.")
     = map byte_val Demo.lf_scene.
Proof.
  assert (u "1" <> []) as Hne by (vm_compute; discriminate).
  destruct (api_scene_serves_file (Demo.answering None)
              (Demo.query (u "1") (u "1")) (u "1") (u "1") Demo.lf_scene
              (u "Nothing will come of nothing." ++ nl ++ u "Speak again.")
              [] eq_refl eq_refl Hne Hne eq_refl eq_refl)
    as (Hret & Hbytes & Hsame).
  split.
  - rewrite Hret, Hsame; [reflexivity|].
    apply not_In_forallb. vm_compute. reflexivity.
  - exact Hbytes.
Defined.

(** C3, as stated, fails on a file with CR LF line ends: the text
    served is not the contents of the file. *)
Lemma api_scene_alters_crlf :
  lookup (files (Demo.answering None))
         (path (Demo.answering None) (VStr (u "3")) (VStr (u "2")))
  = Some (File Demo.crlf_scene)
  /\ api_scene (Demo.answering None) (Demo.query (u "3") (u "2")) []
     = (Ret (jsonify
               (VDict [(u "text",
                        VStr (u "Blow, winds" ++ nl
                                ++ u "and crack your cheeks!"))]) 200), [])
  /\ utf8_encode (u "Blow, winds" ++ nl ++ u "and crack your cheeks!")
     <> map byte_val Demo.crlf_scene.
Proof.
  split; [reflexivity|]. split; [reflexivity|].
  vm_compute. discriminate.
Qed.

(** C6, as amended.  When [act] and [scene] are both supplied (with a
    non-empty value) and the operating system reports that nothing is
    at the scene path, GET /api/scene returns 404 with the JSON body
    {error: m}, where m is "No scene file: " followed by the path; for
    identifiers without a slash the path is
    scenes/lear_act<act>_scene<scene>.txt. *)
Theorem api_scene_missing_file w request a s log :
  assoc (u "act") (args request) = Some a ->
  assoc (u "scene") (args request) = Some s ->
  a <> [] -> s <> [] ->
  missing (files w) (path w (VStr a) (VStr s)) = true ->
  api_scene w request log
  = (Ret (jsonify
            (error_body (u "No scene file: "
                         ++ to_str (path w (VStr a) (VStr s)))) 404), log)
  /\ (~ In sep a -> ~ In sep s ->
      to_str (path w (VStr a) (VStr s))
      = SCENE_DIR ++ u "/lear_act" ++ a ++ u "_scene" ++ s ++ u ".txt").
Proof.
  intros Ha Hs Hane Hsne Hl. split.
  - exact (api_scene_not_found w request a s Ha Hs Hane Hsne log Hl).
  - apply to_str_path_plain.
Qed.

Lemma api_scene_missing_file_witness :
  api_scene (Demo.answering None) (Demo.query (u "3") (u "4")) []
  = (Ret (jsonify
            (error_body (u "No scene file: scenes/lear_act3_scene4.txt"))
            404), []).
Proof.
  assert (u "3" <> []) as H3 by (vm_compute; discriminate).
  assert (u "4" <> []) as H4 by (vm_compute; discriminate).
  exact (proj1 (api_scene_missing_file (Demo.answering None)
                  (Demo.query (u "3") (u "4")) (u "3") (u "4") []
                  eq_refl eq_refl H3 H4 eq_refl)).
Defined.

(** C6, as stated, fails on a name that is too long for the file
    system: with an [act] of three hundred letters nothing exists at
    the scene path, [Path.exists] raises the [OSError] of [os.stat]
    (error 36), and the answer is the fixed 500, not a 404. *)
Lemma api_scene_name_too_long :
  lookup (files (Demo.answering None))
         (path (Demo.answering None) (VStr Faulty.long_name) (VStr (u "1")))
  = None
  /\ api_scene (Demo.answering None)
       (Demo.query Faulty.long_name (u "1")) []
     = (Ret (jsonify (error_body (u "Failed to load scene")) 500),
        [Printed (u "Error loading scene:") (OSError ENAMETOOLONG)]).
Proof.
  split; vm_compute; reflexivity.
Qed.

(** C10.  GET /api/scene returns 400 with the JSON body
    {error: "act and scene are required"} when [act] or [scene] is
    absent from the query and also when either is present with an
    empty value; nothing else is done for such a request. *)
Theorem api_scene_blank_parameter w request log :
  assoc (u "act") (args request) = None
  \/ assoc (u "act") (args request) = Some []
  \/ assoc (u "scene") (args request) = None
  \/ assoc (u "scene") (args request) = Some [] ->
  api_scene w request log
  = (Ret (jsonify (error_body (u "act and scene are required")) 400), log).
Proof.
  intros H. unfold api_scene, args_get.
  destruct H as [H|[H|[H|H]]]; rewrite H; cbn [truthy negb orb];
    try reflexivity;
    destruct (truthy match assoc (u "act") (args request) with
                     | Some s => VStr s
                     | None => VNone
                     end); reflexivity.
Qed.

Lemma api_scene_blank_parameter_witness :
  api_scene (Demo.answering None) (Demo.query (u "3") []) []
  = (Ret (jsonify (error_body (u "act and scene are required")) 400), []).
Proof.
  apply api_scene_blank_parameter. right. right. right. reflexivity.
Defined.

(** C8, as amended.  The identifiers go into the file name as they
    are, so an [act] of "/../../other" (with [scene] "1") makes a path
    that names other_scene1.txt in the working directory, outside the
    scenes directory; when the directory scenes/lear_act exists, GET
    /api/scene serves that file. *)
Theorem api_scene_path_traversal w request up entries inner sub data t log :
  walk [] (fs_root (files w)) (cwd (files w)) = Some (up, Dir entries) ->
  assoc SCENE_DIR entries = Some (Dir inner) ->
  assoc (u "lear_act") inner = Some (Dir sub) ->
  assoc (u "other_scene1.txt") entries = Some (File data) ->
  utf8_decode data = Some t ->
  assoc (u "act") (args request) = Some (u "/../../other") ->
  assoc (u "scene") (args request) = Some (u "1") ->
  location (path w (VStr (u "/../../other")) (VStr (u "1")))
  = (0%nat, [u "other_scene1.txt"])
  /\ under_scenes (path w (VStr (u "/../../other")) (VStr (u "1"))) = false
  /\ lookup (files w) (path w (VStr (u "/../../other")) (VStr (u "1")))
     = Some (File data)
  /\ api_scene w request log
     = (Ret (jsonify (VDict [(u "text", VStr (universal_newlines t))]) 200),
        log).
Proof.
  intros Hcwd Hscenes Hact Hfile Hd Ha Hs.
  assert (lookup (files w) (path w (VStr (u "/../../other")) (VStr (u "1")))
          = Some (File data)) as Hl.
  { apply lookup_stat. unfold stat.
    replace (existsb (Z.eqb 0)
               (to_str (path w (VStr (u "/../../other")) (VStr (u "1")))))
      with false by (vm_compute; reflexivity).
    replace (PATH_MAX <=? byte_length
               (to_str (path w (VStr (u "/../../other")) (VStr (u "1")))))
      with false by (vm_compute; reflexivity).
    change (root (path w (VStr (u "/../../other")) (VStr (u "1")))) with (@nil Z).
    change (parts (path w (VStr (u "/../../other")) (VStr (u "1"))))
      with [SCENE_DIR; u "lear_act"; dotdot; dotdot; u "other_scene1.txt"].
    rewrite Hcwd. cbn [walk].
    change (str_eqb SCENE_DIR dotdot) with false. cbn iota. rewrite Hscenes.
    change (str_eqb (u "lear_act") dotdot) with false. cbn iota.
    rewrite Hact.
    change (str_eqb dotdot dotdot) with true. cbn iota.
    change (str_eqb (u "other_scene1.txt") dotdot) with false. cbn iota.
    rewrite Hfile. reflexivity. }
  split; [reflexivity|]. split; [reflexivity|]. split; [exact Hl|].
  assert (u "/../../other" <> []) as Hane by (vm_compute; discriminate).
  assert (u "1" <> []) as Hsne by (vm_compute; discriminate).
  exact (api_scene_found w request (u "/../../other") (u "1")
           Ha Hs Hane Hsne data t log Hl Hd).
Qed.

Lemma api_scene_path_traversal_witness :
  api_scene (Demo.answering None) (Demo.query (u "/../../other") (u "1")) []
  = (Ret (jsonify (VDict [(u "text", VStr (u "not a scene"))]) 200), []).
Proof.
  refine (proj2 (proj2 (proj2
    (api_scene_path_traversal (Demo.answering None)
       (Demo.query (u "/../../other") (u "1"))
       [Demo.tree] _ _ _ Demo.secret (u "not a scene") []
       eq_refl eq_refl eq_refl eq_refl eq_refl eq_refl eq_refl)))).
Defined.

(** C8, as stated, names an [act] of "../other" as an example; the
    path it makes stays below the scenes directory (its second
    component is the directory lear_act..), and the file
    other_scene1.txt next to the scenes directory is not served. *)
Lemma api_scene_dotdot_other_stays_inside :
  location (path (Demo.answering None) (VStr (u "../other")) (VStr (u "1")))
  = (0%nat, [u "scenes"; u "lear_act.."; u "other_scene1.txt"])
  /\ under_scenes
       (path (Demo.answering None) (VStr (u "../other")) (VStr (u "1")))
     = true
  /\ api_scene (Demo.answering None) (Demo.query (u "../other") (u "1")) []
     = (Ret (jsonify
               (error_body
                  (u "No scene file: scenes/lear_act../other_scene1.txt"))
               404), []).
Proof.
  split; [reflexivity|]. split; reflexivity.
Qed.

(** ** The prompt *)

(** C7.  For every text and every [act] and [scene], the prompt is not
    empty and holds the text as one contiguous piece. *)
Theorem prompt_contains_text (w : world) (text : str) (act scene : value) :
  prompt w text act scene <> []
  /\ exists before after, prompt w text act scene = before ++ text ++ after.
Proof.
  split.
  - unfold prompt.
    assert (exists c rest, prompt_opening = c :: rest) as (c & rest & ->)
      by (vm_compute; eauto).
    discriminate.
  - exists (prompt_opening ++ context_str w act scene ++ prompt_rubric
            ++ dq ++ dq ++ dq), (dq ++ dq ++ dq ++ prompt_closing).
    unfold prompt. rewrite <- !app_assoc. reflexivity.
Qed.

(** C9.  The context line is put together from the identifiers that
    are supplied and not empty: with [act] alone it is
    "Context: this passage is from King Lear, Act X.", with [scene]
    alone "Context: this passage is from King Lear, Scene Y.", with
    both "... Act X, Scene Y."; an identifier that is absent or the
    empty string adds nothing, and there is no context line when both
    are.  The line stands in the prompt right after its opening. *)
Theorem context_line_per_identifier w text a s absent1 absent2 :
  a <> [] -> s <> [] ->
  absent1 = VNone \/ absent1 = VStr [] ->
  absent2 = VNone \/ absent2 = VStr [] ->
  context_str w (VStr a) absent2 = context_line (u "Act " ++ a)
  /\ context_str w absent1 (VStr s) = context_line (u "Scene " ++ s)
  /\ context_str w (VStr a) (VStr s)
     = context_line (u "Act " ++ a ++ u ", Scene " ++ s)
  /\ context_str w absent1 absent2 = []
  /\ prompt w text (VStr a) absent2
     = prompt_opening ++ context_line (u "Act " ++ a) ++ prompt_rubric
       ++ dq ++ dq ++ dq ++ text ++ dq ++ dq ++ dq ++ prompt_closing
  /\ prompt w text absent1 (VStr s)
     = prompt_opening ++ context_line (u "Scene " ++ s) ++ prompt_rubric
       ++ dq ++ dq ++ dq ++ text ++ dq ++ dq ++ dq ++ prompt_closing
  /\ prompt w text absent1 absent2
     = prompt_opening ++ prompt_rubric
       ++ dq ++ dq ++ dq ++ text ++ dq ++ dq ++ dq ++ prompt_closing.
Proof.
  intros Ha Hs H1 H2.
  destruct a as [|ca a']; [congruence|].
  destruct s as [|cs s']; [congruence|].
  assert (context_str w (VStr (ca :: a')) absent2
          = context_line (u "Act " ++ ca :: a')) as E1.
  { destruct H2 as [-> | ->]; unfold context_str, context_bits, context_line;
      cbn [truthy app join format]; reflexivity. }
  assert (context_str w absent1 (VStr (cs :: s'))
          = context_line (u "Scene " ++ cs :: s')) as E2.
  { destruct H1 as [-> | ->]; unfold context_str, context_bits, context_line;
      cbn [truthy app join format]; reflexivity. }
  assert (context_str w absent1 absent2 = []) as E3.
  { destruct H1 as [-> | ->]; destruct H2 as [-> | ->]; reflexivity. }
  repeat split; unfold prompt; rewrite ?E1, ?E2, ?E3; reflexivity.
Qed.

Lemma context_line_per_identifier_witness :
  context_str (Demo.answering None) (VStr (u "3")) VNone
  = u "Context: this passage is from King Lear, Act 3." ++ nl
  /\ context_str (Demo.answering None) (VStr []) (VStr (u "4"))
     = u "Context: this passage is from King Lear, Scene 4." ++ nl
  /\ context_str (Demo.answering None) (VStr []) VNone = [].
Proof.
  assert (u "3" <> []) as H3 by (vm_compute; discriminate).
  assert (u "4" <> []) as H4 by (vm_compute; discriminate).
  destruct (context_line_per_identifier (Demo.answering None) [] (u "3")
              (u "4") (VStr []) VNone H3 H4 (or_intror eq_refl)
              (or_introl eq_refl)) as (E1 & E2 & _ & E3 & _).
  split; [exact E1|]. split; [exact E2|exact E3].
Defined.

(** ** POST /api/analyze *)

Lemma json_body_parsed (request : Request) (v : value) :
  json_body request = Some v -> json_parse request = Parsed v.
Proof.
  unfold json_body. destruct (json_parse request); congruence.
Qed.

Lemma analyze_with_gpt_outcome w text act scene log :
  analyze_with_gpt w text act scene log =
  let call := completion_request (prompt w text act scene) in
  match chat_completions_create w call with
  | Raises => (Raise APIError, log ++ [Called call])
  | Choices [] => (Raise IndexError, log ++ [Called call])
  | Choices (None :: _) => (Raise TypeError, log ++ [Called call])
  | Choices (Some c :: _) =>
    match json_loads w c with
    | Some v => (Ret v, log ++ [Called call])
    | None => (Raise JSONDecodeError, log ++ [Called call])
    end
  end.
Proof.
  unfold analyze_with_gpt, create, bind, emit, ret, raise. cbv zeta.
  destruct (chat_completions_create w
              (completion_request (prompt w text act scene)))
    as [|[|[c|] rest]]; try reflexivity.
  simpl. unfold loads, of_option, ret, raise.
  destruct (json_loads w c); reflexivity.
Qed.

Lemma api_analyze_outcome w request d s log :
  json_body request = Some (VDict d) ->
  assoc (u "text") d = Some (VStr s) ->
  strip s <> [] ->
  api_analyze w request log =
  match analyze_with_gpt w (strip s) (field d (u "act")) (field d (u "scene"))
          log with
  | (Ret result, log') => (Ret (jsonify result 200), log')
  | (Raise e, log') =>
    (Ret (jsonify (error_body (u "GPT analysis failed.")) 500),
     log' ++ [Printed (u "Error calling GPT:") e])
  end.
Proof.
  intros Hb Ht Hs. apply json_body_parsed in Hb.
  unfold api_analyze, get_json, get, strip_method, bind, of_option, ret.
  rewrite Hb, Ht. unfold field.
  destruct (strip s) as [|c t] eqn:E; [congruence|].
  cbn [truthy negb]. unfold try_except.
  destruct (analyze_with_gpt w (c :: t)
              match assoc (u "act") d with Some v => v | None => VNone end
              match assoc (u "scene") d with Some v => v | None => VNone end
              log) as [[result|e] log']; reflexivity.
Qed.







(** ** What reaches the client *)

(** C1 fails on the code at a [text] that is not a string: the call of
    [strip] raises [AttributeError] outside every [try], the view ends
    in that exception, and the client gets Flask's HTML page with
    status 500 instead of a JSON error. *)
Theorem api_analyze_text_not_string_unhandled (w : world) (log : list event) :
  api_analyze w (Demo.post (VDict [(u "text", VInt 5)])) log
  = (Raise AttributeError, log)
  /\ serve api_analyze w (Demo.post (VDict [(u "text", VInt 5)]))
     = HtmlReply 500.
Proof. split; reflexivity. Qed.

(** The same view with a body that is not JSON: werkzeug's
    [BadRequest] leaves the view and Flask answers with its HTML page. *)
Lemma api_analyze_body_not_json (w : world) (request : Request) :
  json_parse request = NotJson ->
  serve api_analyze w request = HtmlReply 400.
Proof.
  intros Hb. unfold serve, api_analyze, get_json, bind, of_option.
  rewrite Hb. reflexivity.
Qed.

(** A body that is JSON but not an object has no [get]. *)
Lemma api_analyze_body_not_object (w : world) (request : Request) v :
  json_body request = Some v -> is_dict v = false ->
  serve api_analyze w request = HtmlReply 500.
Proof.
  intros Hb Hv. apply json_body_parsed in Hb.
  unfold serve, api_analyze, get_json, bind, of_option.
  rewrite Hb. destruct v; try discriminate; reflexivity.
Qed.

(** The scene endpoint does catch everything: whatever the query and
    the file system, the client gets JSON with one of four codes. *)
Lemma api_scene_always_json (w : world) (request : Request) :
  exists code v,
    serve api_scene w request = JsonReply code v
    /\ In code [200; 400; 404; 500].
Proof.
  unfold serve, api_scene.
  destruct (negb (truthy (args_get request (u "act")))
            || negb (truthy (args_get request (u "scene")))).
  - do 2 eexists. split; [reflexivity|]. simpl. tauto.
  - unfold try_except, bind.
    destruct (load_scene_text w (args_get request (u "act"))
                (args_get request (u "scene")) []) as [[text|e] log'].
    + do 2 eexists. split; [reflexivity|]. simpl. tauto.
    + destruct (is_FileNotFoundError e).
      * do 2 eexists. split; [reflexivity|]. simpl. tauto.
      * do 2 eexists. split; [reflexivity|]. simpl. tauto.
Qed.

(** So does the analysis endpoint once [get_json] has returned an
    object whose [text] is a string or missing. *)
Lemma api_analyze_json_on_string_text (w : world) (request : Request) d :
  json_body request = Some (VDict d) ->
  (assoc (u "text") d = None \/ exists s, assoc (u "text") d = Some (VStr s)) ->
  exists code v,
    serve api_analyze w request = JsonReply code v
    /\ In code [200; 400; 500].
Proof.
  intros Hb Ht.
  assert (exists s, get (VDict d) (u "text") (VStr []) []
                    = (Ret (VStr s), [])) as [s Hg].
  { unfold get, ret. destruct Ht as [Ht|[s Ht]]; rewrite Ht; eauto. }
  apply json_body_parsed in Hb.
  unfold serve, api_analyze, get_json, bind, of_option, ret.
  rewrite Hb. unfold ret in Hg. rewrite Hg. unfold strip_method, ret.
  destruct (strip s) as [|c t].
  - do 2 eexists. split; [reflexivity|]. simpl. tauto.
  - cbn [truthy negb]. unfold get, ret, try_except, bind.
    destruct (analyze_with_gpt w (c :: t)
                match assoc (u "act") d with Some v => v | None => VNone end
                match assoc (u "scene") d with Some v => v | None => VNone end
                []) as [[result|e] log'].
    + do 2 eexists. split; [reflexivity|]. simpl. tauto.
    + do 2 eexists. split; [reflexivity|]. simpl. tauto.
Qed.

(** * Further properties of the code *)

(** ** The scene path, for any identifiers *)

Lemma split_sep_prefix (pre x : str) :
  ~ In sep pre ->
  exists h r, split_sep x = h :: r /\ split_sep (pre ++ x) = (pre ++ h) :: r.
Proof.
  induction pre as [|c pre IH]; intros Hn.
  - destruct x as [|c t]; simpl; [eauto|].
    destruct (c =? sep); [eauto|]. destruct (split_sep t); eauto.
  - destruct IH as (h & r & Hx & Hp).
    { intros Hin. apply Hn. now right. }
    exists h, r. split; [exact Hx|].
    simpl. destruct (c =? sep) eqn:E.
    + apply Z.eqb_eq in E. exfalso. apply Hn. now left.
    + rewrite Hp. reflexivity.
Qed.

Lemma raw_path_any (w : world) (act scene : value) :
  raw (path w act scene)
  = u "scenes" ++ sep :: u "lear_act"
      ++ (format w act ++ u "_scene" ++ format w scene ++ u ".txt").
Proof. reflexivity. Qed.

Lemma path_shape (w : world) (act scene : value) :
  root (path w act scene) = []
  /\ exists h rest,
       parts (path w act scene) = SCENE_DIR :: (u "lear_act" ++ h) :: rest.
Proof.
  unfold root, parts. rewrite raw_path_any.
  literal "scenes"%string. literal "lear_act"%string.
  set (x := format w act ++ u "_scene" ++ format w scene ++ u ".txt").
  split; [reflexivity|].
  cbn [splitroot app Z.eqb Pos.eqb sep fst snd].
  change (115 :: 99 :: 101 :: 110 :: 101 :: 115 :: sep
            :: 108 :: 101 :: 97 :: 114 :: 95 :: 97 :: 99 :: 116 :: x)
    with ([115; 99; 101; 110; 101; 115]
            ++ sep :: ([108; 101; 97; 114; 95; 97; 99; 116] ++ x)).
  rewrite split_sep_app by (unfold sep; simpl; intuition lia).
  destruct (split_sep_prefix [108; 101; 97; 114; 95; 97; 99; 116] x)
    as (h & r & _ & ->); [unfold sep; simpl; intuition lia|].
  exists h, (filter keep_part r). reflexivity.
Qed.

(** Whatever the identifiers are, the path is relative, its first
    component is the scenes directory and its second one a name that
    begins with lear_act, and its text begins with scenes/lear_act: no
    identifier can make the path absolute or make it start with [..]. *)
Theorem path_starts_in_scenes (w : world) (act scene : value) :
  root (path w act scene) = []
  /\ (exists h rest,
         parts (path w act scene) = SCENE_DIR :: (u "lear_act" ++ h) :: rest)
  /\ exists tail, to_str (path w act scene) = u "scenes/lear_act" ++ tail.
Proof.
  destruct (path_shape w act scene) as (Hroot & h & rest & Hp).
  split; [exact Hroot|]. split; [eauto|].
  unfold to_str. rewrite Hroot, Hp.
  exists (h ++ match rest with [] => [] | _ => sep :: join [sep] rest end).
  destruct rest as [|q rest]; [rewrite app_nil_r|]; reflexivity.
Qed.

Lemma keep_lear_act (h : str) : keep_part (u "lear_act" ++ h) = true.
Proof. reflexivity. Qed.

Lemma lear_act_not_dotdot (h : str) : str_eqb (u "lear_act" ++ h) dotdot = false.
Proof. reflexivity. Qed.

(** Identifiers without a slash cannot leave the scenes directory:
    the path then has exactly two components, the scenes directory
    and the file name, whatever the file system holds. *)
Theorem slash_free_identifiers_stay_inside (w : world) (a s : str) :
  ~ In sep a -> ~ In sep s ->
  parts (path w (VStr a) (VStr s))
  = [SCENE_DIR; u "lear_act" ++ a ++ u "_scene" ++ s ++ u ".txt"]
  /\ location (path w (VStr a) (VStr s))
     = (0%nat, [SCENE_DIR; u "lear_act" ++ a ++ u "_scene" ++ s ++ u ".txt"])
  /\ under_scenes (path w (VStr a) (VStr s)) = true.
Proof.
  intros Ha Hs.
  assert (parts (path w (VStr a) (VStr s))
          = [SCENE_DIR; u "lear_act" ++ a ++ u "_scene" ++ s ++ u ".txt"])
    as Hp.
  { unfold parts. rewrite raw_path_any. cbn [format].
    set (f := u "lear_act" ++ a ++ u "_scene" ++ s ++ u ".txt").
    assert (~ In sep f) as Hf.
    { unfold f. rewrite !in_app_iff. unfold sep in *.
      literal "lear_act"%string. literal "_scene"%string.
      literal ".txt"%string. simpl. intuition lia. }
    literal "scenes"%string.
    cbn [splitroot app Z.eqb Pos.eqb sep fst snd].
    change (115 :: 99 :: 101 :: 110 :: 101 :: 115 :: sep :: f)
      with ([115; 99; 101; 110; 101; 115] ++ sep :: f).
    rewrite split_sep_app by (unfold sep; simpl; intuition lia).
    rewrite (split_sep_plain f Hf). cbn [filter].
    change (keep_part [115; 99; 101; 110; 101; 115]) with true.
    unfold f at 1. rewrite keep_lear_act. reflexivity. }
  split; [exact Hp|].
  assert (location (path w (VStr a) (VStr s))
          = (0%nat,
             [SCENE_DIR; u "lear_act" ++ a ++ u "_scene" ++ s ++ u ".txt"]))
    as Hloc.
  { unfold location. rewrite Hp. cbn [normalize].
    change (str_eqb SCENE_DIR dotdot) with false. cbn iota.
    rewrite lear_act_not_dotdot. reflexivity. }
  split; [exact Hloc|].
  unfold under_scenes. rewrite Hloc.
  destruct (path_shape w (VStr a) (VStr s)) as [-> _].
  reflexivity.
Qed.

Lemma slash_free_identifiers_stay_inside_witness :
  under_scenes (path (Demo.answering None) (VStr (u "..")) (VStr (u "..")))
  = true.
Proof.
  refine (proj2 (proj2 (slash_free_identifiers_stay_inside
                          (Demo.answering None) (u "..") (u "..") _ _)));
    apply not_In_forallb; reflexivity.
Defined.

(** A node found at a relative path is the end of a walk from the
    working directory. *)
Lemma lookup_walk fs p n up dir :
  lookup fs p = Some n -> root p = [] ->
  walk [] (fs_root fs) (cwd fs) = Some (up, dir) ->
  exists up', walk up dir (parts p) = Some (up', n).
Proof.
  intros Hl Hroot Hcwd. apply lookup_stat in Hl. unfold stat in Hl.
  destruct (existsb (Z.eqb 0) (to_str p)); [discriminate Hl|].
  destruct (PATH_MAX <=? byte_length (to_str p)); [discriminate Hl|].
  rewrite Hroot, Hcwd in Hl.
  destruct (walk up dir (parts p)) as [[up' n']|]; [|discriminate Hl].
  inversion Hl. eauto.
Qed.

(** When the scenes directory holds regular files only, every file
    [load_scene_text] can reach is one of its entries, under a name
    that begins with lear_act, whatever the identifiers are: leaving
    the directory needs a directory inside it to step through. *)
Theorem flat_scenes_directory_confines w act scene up entries inner data :
  walk [] (fs_root (files w)) (cwd (files w)) = Some (up, Dir entries) ->
  assoc SCENE_DIR entries = Some (Dir inner) ->
  (forall name n, assoc name inner = Some n -> exists d, n = File d) ->
  lookup (files w) (path w act scene) = Some (File data) ->
  exists h, assoc (u "lear_act" ++ h) inner = Some (File data).
Proof.
  intros Hcwd Hscenes Hflat Hl.
  destruct (path_shape w act scene) as (Hroot & h & rest & Hp).
  destruct (lookup_walk _ _ _ _ _ Hl Hroot Hcwd) as [up' Hw].
  rewrite Hp in Hw. cbn [walk] in Hw.
  change (str_eqb SCENE_DIR dotdot) with false in Hw. cbn iota in Hw.
  rewrite Hscenes in Hw. rewrite lear_act_not_dotdot in Hw.
  exists h.
  destruct (assoc (u "lear_act" ++ h) inner) as [n|] eqn:Hn;
    [|discriminate Hw].
  destruct (Hflat _ _ Hn) as [d ->].
  destruct rest as [|q rest]; simpl in Hw; [|discriminate Hw].
  inversion Hw. reflexivity.
Qed.

Lemma flat_scenes_directory_confines_witness :
  exists h, assoc (u "lear_act" ++ h) Faulty.scenes_entries
            = Some (File Demo.lf_scene).
Proof.
  apply (flat_scenes_directory_confines Faulty.raising
           (VStr (u "1")) (VStr (u "1")) [Faulty.tree]
           [(u "scenes", Dir Faulty.scenes_entries);
            (u "other_scene1.txt", File Demo.secret)]
           Faulty.scenes_entries Demo.lf_scene).
  - reflexivity.
  - reflexivity.
  - intros name n H. unfold Faulty.scenes_entries in H. simpl in H.
    destruct (str_eqb name (u "lear_act1_scene1.txt")).
    + inversion H. eauto.
    + destruct (str_eqb name (u "lear_act2_scene2.txt")).
      * inversion H. eauto.
      * discriminate H.
  - reflexivity.
Defined.

(** ** Every outcome of the scene endpoint *)

Lemma api_scene_cases w request log :
  api_scene w request log =
  let act := args_get request (u "act") in
  let scene := args_get request (u "scene") in
  let not_found :=
    (Ret (jsonify
            (error_body (u "No scene file: "
                         ++ to_str (path w act scene))) 404), log) in
  let failed e :=
    (Ret (jsonify (error_body (u "Failed to load scene")) 500),
     log ++ [Printed (u "Error loading scene:") e]) in
  if negb (truthy act) || negb (truthy scene)
  then (Ret (jsonify (error_body (u "act and scene are required")) 400), log)
  else
    match stat (files w) (path w act scene) with
    | NulCharacter => not_found
    | Errno e => if ignored_errno e then not_found else failed (OSError e)
    | Found (Dir _) => failed IsADirectoryError
    | Found (File data) =>
      match utf8_decode data with
      | Some t =>
        (Ret (jsonify (VDict [(u "text", VStr (universal_newlines t))]) 200),
         log)
      | None => failed UnicodeDecodeError
      end
    end.
Proof.
  unfold api_scene. cbv zeta.
  destruct (negb (truthy (args_get request (u "act")))
            || negb (truthy (args_get request (u "scene"))));
    [reflexivity|].
  unfold try_except, bind. rewrite load_scene_text_by_stat.
  destruct (stat (files w)
              (path w (args_get request (u "act"))
                 (args_get request (u "scene")))) as [[data|entries]|e|];
    try reflexivity.
  - destruct (utf8_decode data); reflexivity.
  - destruct (ignored_errno e); reflexivity.
Qed.

(** GET /api/scene never raises and never calls the provider.  It
    leaves the log as it found it, except when it answers 500: then it
    has printed the exception, one line, and the body is the fixed
    {error: "Failed to load scene"}, which says nothing of the cause. *)
Theorem api_scene_effects (w : world) (request : Request) (log : list event) :
  exists r,
    (api_scene w request log = (Ret r, log) /\ status r <> 500)
    \/ (exists e,
          api_scene w request log
          = (Ret r, log ++ [Printed (u "Error loading scene:") e])
          /\ status r = 500
          /\ body r = error_body (u "Failed to load scene")).
Proof.
  rewrite api_scene_cases. cbv zeta.
  destruct (negb (truthy (args_get request (u "act")))
            || negb (truthy (args_get request (u "scene")))).
  { eexists. left. split; [reflexivity|]. discriminate. }
  destruct (stat (files w)
              (path w (args_get request (u "act"))
                 (args_get request (u "scene")))) as [[data|entries]|e|].
  - destruct (utf8_decode data).
    + eexists. left. split; [reflexivity|]. discriminate.
    + eexists. right. eexists. repeat split.
  - eexists. right. eexists. repeat split.
  - destruct (ignored_errno e).
    + eexists. left. split; [reflexivity|]. discriminate.
    + eexists. right. eexists. repeat split.
  - eexists. left. split; [reflexivity|]. discriminate.
Qed.

(** When something is found at the scene path that cannot be read as
    UTF-8 text (a directory, or a file whose bytes are not UTF-8), GET
    /api/scene answers 500 with the fixed error body and prints the
    exception. *)
Theorem api_scene_unreadable w request a s log :
  assoc (u "act") (args request) = Some a ->
  assoc (u "scene") (args request) = Some s ->
  a <> [] -> s <> [] ->
  (exists entries,
      lookup (files w) (path w (VStr a) (VStr s)) = Some (Dir entries))
  \/ (exists data,
         lookup (files w) (path w (VStr a) (VStr s)) = Some (File data)
         /\ utf8_decode data = None) ->
  exists e,
    api_scene w request log
    = (Ret (jsonify (error_body (u "Failed to load scene")) 500),
       log ++ [Printed (u "Error loading scene:") e])
    /\ (e = IsADirectoryError \/ e = UnicodeDecodeError).
Proof.
  intros Ha Hs Hane Hsne H.
  rewrite (api_scene_outcome w request a s Ha Hs Hane Hsne log).
  rewrite load_scene_text_by_stat.
  destruct H as [[entries Hl]|(data & Hl & Hd)]; apply lookup_stat in Hl;
    rewrite Hl.
  - exists IsADirectoryError. split; [reflexivity|]. now left.
  - rewrite Hd. exists UnicodeDecodeError. split; [reflexivity|]. now right.
Qed.

Lemma api_scene_unreadable_witness :
  exists e,
    api_scene Faulty.raising (Demo.query (u "2") (u "2")) []
    = (Ret (jsonify (error_body (u "Failed to load scene")) 500),
       [] ++ [Printed (u "Error loading scene:") e])
    /\ (e = IsADirectoryError \/ e = UnicodeDecodeError).
Proof.
  apply (api_scene_unreadable Faulty.raising (Demo.query (u "2") (u "2"))
           (u "2") (u "2") []).
  - reflexivity.
  - reflexivity.
  - vm_compute. discriminate.
  - vm_compute. discriminate.
  - right. exists Faulty.garbled. split; reflexivity.
Defined.

(** What each status of GET /api/scene means: 400 exactly when [act]
    or [scene] is missing or empty; 404 exactly when both are given and
    the operating system reports that nothing is at the path; 200
    exactly when a file with valid UTF-8 contents is found there; 500
    in the remaining cases: a directory, a file that is not UTF-8, or
    an error of [os.stat] that [Path.exists] does not take for an
    answer (a name or a path that is too long). *)
Theorem api_scene_status_meaning w request log r log' :
  api_scene w request log = (Ret r, log') ->
  let act := args_get request (u "act") in
  let scene := args_get request (u "scene") in
  let given := truthy act = true /\ truthy scene = true in
  (status r = 400 <-> ~ given)
  /\ (status r = 404 <->
      given /\ missing (files w) (path w act scene) = true)
  /\ (status r = 200 <->
      given /\ exists data t,
                 lookup (files w) (path w act scene) = Some (File data)
                 /\ utf8_decode data = Some t)
  /\ (status r = 500 <->
      given /\ ((exists entries,
                    lookup (files w) (path w act scene) = Some (Dir entries))
                \/ (exists data,
                       lookup (files w) (path w act scene) = Some (File data)
                       /\ utf8_decode data = None)
                \/ exists e,
                     stat (files w) (path w act scene) = Errno e
                     /\ ignored_errno e = false)).
Proof.
  intros H. rewrite api_scene_cases in H. cbv zeta in *.
  unfold missing, lookup.
  destruct (truthy (args_get request (u "act"))) eqn:Ta;
    destruct (truthy (args_get request (u "scene"))) eqn:Ts;
    cbn [negb orb] in H;
    try (inversion H; subst; cbn [status jsonify];
         repeat split; intros; try discriminate; try tauto;
         match goal with
         | K : _ /\ _ |- _ => destruct K as [[? ?] _]; discriminate
         | K : ~ _ |- _ => idtac
         | |- ~ _ => intros [? ?]; discriminate
         end; fail).
  destruct (stat (files w)
              (path w (args_get request (u "act"))
                 (args_get request (u "scene")))) as [[data|entries]|e|];
    [destruct (utf8_decode data) as [t|] eqn:Hd| |
     destruct (ignored_errno e) eqn:He|];
    inversion H; subst; cbn [status jsonify];
    repeat split; intros;
    repeat match goal with
    | K : _ /\ _ |- _ => destruct K
    | K : exists _, _ |- _ => destruct K
    | K : _ \/ _ |- _ => destruct K
    end;
    try discriminate; try congruence; try tauto; eauto 7.
Qed.

Lemma api_scene_status_meaning_witness :
  missing (files (Demo.answering None))
          (path (Demo.answering None) (VStr (u "3")) (VStr (u "4"))) = true.
Proof.
  pose proof (api_scene_status_meaning (Demo.answering None)
                (Demo.query (u "3") (u "4")) []
                (jsonify
                   (error_body
                      (u "No scene file: scenes/lear_act3_scene4.txt")) 404)
                [] eq_refl) as (_ & H404 & _).
  destruct (proj1 H404 eq_refl) as [_ Hl]. exact Hl.
Defined.

Lemma walk_errno_short (ps : list str) :
  Forall (fun c => byte_length c <= NAME_MAX) ps ->
  forall up cur, ignored_errno (walk_errno up cur ps) = true.
Proof.
  induction 1 as [|p ps Hp Hps IH]; intros up cur; [reflexivity|].
  cbn [walk_errno]. destruct cur as [data|entries]; [reflexivity|].
  destruct (str_eqb p dotdot).
  - destruct up; apply IH.
  - destruct (assoc p entries); [apply IH|].
    destruct (NAME_MAX <? byte_length p) eqn:E; [|reflexivity].
    apply Z.ltb_lt in E. lia.
Qed.

(** With names of ordinary length, nothing found is a plain 404: when
    [act] and [scene] are both given, the text of the scene path is
    shorter than [PATH_MAX] bytes, none of its components is longer
    than [NAME_MAX] bytes and nothing is found at it, GET /api/scene
    answers 404 with the body that names the path. *)
Theorem api_scene_short_name_not_found w request a s log :
  assoc (u "act") (args request) = Some a ->
  assoc (u "scene") (args request) = Some s ->
  a <> [] -> s <> [] ->
  byte_length (to_str (path w (VStr a) (VStr s))) < PATH_MAX ->
  Forall (fun c => byte_length c <= NAME_MAX)
         (parts (path w (VStr a) (VStr s))) ->
  lookup (files w) (path w (VStr a) (VStr s)) = None ->
  missing (files w) (path w (VStr a) (VStr s)) = true
  /\ api_scene w request log
     = (Ret (jsonify
               (error_body (u "No scene file: "
                            ++ to_str (path w (VStr a) (VStr s)))) 404), log).
Proof.
  intros Ha Hs Hane Hsne Hlen Hnames Hl.
  assert (missing (files w) (path w (VStr a) (VStr s)) = true) as Hm.
  { unfold missing. unfold lookup in Hl. unfold stat in *.
    destruct (existsb (Z.eqb 0) (to_str (path w (VStr a) (VStr s))));
      [reflexivity|].
    destruct (PATH_MAX <=? byte_length (to_str (path w (VStr a) (VStr s))))
      eqn:E; [apply Z.leb_le in E; lia|].
    destruct (root (path w (VStr a) (VStr s))).
    - destruct (walk [] (fs_root (files w)) (cwd (files w)))
        as [[up dir]|]; [|reflexivity].
      destruct (walk up dir (parts (path w (VStr a) (VStr s))))
        as [[up' n]|]; [discriminate Hl|].
      now apply walk_errno_short.
    - destruct (walk [] (fs_root (files w))
                  (parts (path w (VStr a) (VStr s)))) as [[up' n]|];
        [discriminate Hl|].
      now apply walk_errno_short. }
  split; [exact Hm|].
  exact (api_scene_not_found w request a s Ha Hs Hane Hsne log Hm).
Qed.

Lemma api_scene_short_name_not_found_witness :
  api_scene (Demo.answering None) (Demo.query (u "3") (u "4")) []
  = (Ret (jsonify
            (error_body (u "No scene file: scenes/lear_act3_scene4.txt"))
            404), []).
Proof.
  refine (proj2 (api_scene_short_name_not_found (Demo.answering None)
                   (Demo.query (u "3") (u "4")) (u "3") (u "4") []
                   eq_refl eq_refl _ _ _ _ eq_refl)).
  - vm_compute. discriminate.
  - vm_compute. discriminate.
  - vm_compute. reflexivity.
  - repeat constructor; vm_compute; discriminate.
Defined.

Lemma universal_newlines_no_carriage_return (t : str) :
  ~ In 13 (universal_newlines t).
Proof.
  induction t as [|c t IH]; [simpl; tauto|].
  cbn [universal_newlines].
  destruct (c =? 13) eqn:E.
  - intros [H|H]; [discriminate H|].
    destruct t as [|c' t']; [destruct H|].
    destruct (c' =? 10) eqn:E'; [|exact (IH H)].
    apply IH. cbn [universal_newlines].
    apply Z.eqb_eq in E'. subst c'. simpl. now right.
  - apply Z.eqb_neq in E. intros [H|H]; [congruence|exact (IH H)].
Qed.

(** A scene served with status 200 is the body {text: t} for a text
    [t] that holds no carriage return, whatever the line ends of the
    file are. *)
Theorem api_scene_text_has_no_carriage_return w request log r log' :
  api_scene w request log = (Ret r, log') ->
  status r = 200 ->
  exists t, body r = VDict [(u "text", VStr t)] /\ ~ In 13 t.
Proof.
  intros H Hst. rewrite api_scene_cases in H. cbv zeta in H.
  destruct (negb (truthy (args_get request (u "act")))
            || negb (truthy (args_get request (u "scene"))));
    [inversion H; subst; discriminate Hst|].
  destruct (stat (files w)
              (path w (args_get request (u "act"))
                 (args_get request (u "scene")))) as [[data|entries]|e|];
    [destruct (utf8_decode data) as [t|]| |destruct (ignored_errno e)|];
    inversion H; subst; try discriminate Hst.
  exists (universal_newlines t). split; [reflexivity|].
  apply universal_newlines_no_carriage_return.
Qed.

Lemma api_scene_text_has_no_carriage_return_witness :
  exists t,
    VDict [(u "text",
            VStr (u "Blow, winds" ++ nl ++ u "and crack your cheeks!"))]
    = VDict [(u "text", VStr t)] /\ ~ In 13 t.
Proof.
  apply (api_scene_text_has_no_carriage_return (Demo.answering None)
           (Demo.query (u "3") (u "2")) []
           (jsonify
              (VDict [(u "text",
                       VStr (u "Blow, winds" ++ nl
                               ++ u "and crack your cheeks!"))]) 200) []).
  - reflexivity.
  - reflexivity.
Defined.

(** ** Every outcome of the analysis endpoint *)

(** Once [get_json] has returned an object with a non-blank string
    [text], POST /api/analyze calls [client.chat.completions.create]
    exactly once, whatever comes back: model gpt-4.1-mini, one user
    message holding the prompt built from the stripped text and the
    [act] and [scene] of the body, JSON object format, temperature 0.4.
    It then answers 200, or answers 500 with the fixed body after
    printing the exception; from there on no exception leaves the view
    and it makes no second call. *)
Theorem api_analyze_single_request w request d s log :
  json_body request = Some (VDict d) ->
  assoc (u "text") d = Some (VStr s) ->
  strip s <> [] ->
  let call :=
    {| model := u "gpt-4.1-mini";
       messages :=
         [(u "user",
           prompt w (strip s) (field d (u "act")) (field d (u "scene")))];
       response_format := u "json_object";
       temperature := u "0.4" |} in
  exists r,
    (api_analyze w request log = (Ret r, log ++ [Called call])
     /\ status r = 200)
    \/ (exists e,
          api_analyze w request log
          = (Ret r, log ++ [Called call; Printed (u "Error calling GPT:") e])
          /\ status r = 500
          /\ body r = error_body (u "GPT analysis failed.")).
Proof.
  intros Hb Ht Hs call.
  rewrite (api_analyze_outcome w request d s log Hb Ht Hs).
  rewrite analyze_with_gpt_outcome. cbv zeta.
  change (completion_request
            (prompt w (strip s) (field d (u "act")) (field d (u "scene"))))
    with call.
  destruct (chat_completions_create w call) as [|[|[c|] rest]].
  - eexists. right. eexists. rewrite <- app_assoc. repeat split.
  - eexists. right. eexists. rewrite <- app_assoc. repeat split.
  - destruct (json_loads w c) as [v|].
    + eexists. left. split; reflexivity.
    + eexists. right. eexists. rewrite <- app_assoc. repeat split.
  - eexists. right. eexists. rewrite <- app_assoc. repeat split.
Qed.

Lemma api_analyze_single_request_witness :
  exists r,
    List.length (snd (api_analyze Faulty.raising
                        (Demo.post (VDict [(u "text", VStr (u "Howl"))])) []))
    = 2%nat
    /\ fst (api_analyze Faulty.raising
              (Demo.post (VDict [(u "text", VStr (u "Howl"))])) [])
       = Ret r.
Proof.
  assert (strip (u "Howl") <> []) as Hs by (vm_compute; discriminate).
  destruct (api_analyze_single_request Faulty.raising
              (Demo.post (VDict [(u "text", VStr (u "Howl"))]))
              [(u "text", VStr (u "Howl"))] (u "Howl") []
              eq_refl eq_refl Hs) as [r [[H Hst]|(e & H & _)]].
  - exfalso. vm_compute in H. discriminate H.
  - exists r. rewrite H. split; reflexivity.
Defined.

(** Every way the provider call can fail gives the same answer: the
    client raising, a completion without choices, a content that is
    [None], a content that is not JSON.  Each time the answer is 500
    with the fixed body {error: "GPT analysis failed."}, and the
    exception is printed on the server, not sent. *)
Theorem api_analyze_upstream_failure w request d s log :
  json_body request = Some (VDict d) ->
  assoc (u "text") d = Some (VStr s) ->
  strip s <> [] ->
  let call :=
    completion_request
      (prompt w (strip s) (field d (u "act")) (field d (u "scene"))) in
  let failed e :=
    api_analyze w request log
    = (Ret (jsonify (error_body (u "GPT analysis failed.")) 500),
       log ++ [Called call; Printed (u "Error calling GPT:") e]) in
  (chat_completions_create w call = Raises -> failed APIError)
  /\ (chat_completions_create w call = Choices [] -> failed IndexError)
  /\ (forall rest,
         chat_completions_create w call = Choices (None :: rest) ->
         failed TypeError)
  /\ (forall c rest,
         chat_completions_create w call = Choices (Some c :: rest) ->
         json_loads w c = None -> failed JSONDecodeError).
Proof.
  intros Hb Ht Hs call failed. unfold failed.
  rewrite (api_analyze_outcome w request d s log Hb Ht Hs).
  rewrite analyze_with_gpt_outcome. cbv zeta. fold call.
  repeat split.
  - intros ->. rewrite <- app_assoc. reflexivity.
  - intros ->. rewrite <- app_assoc. reflexivity.
  - intros rest ->. rewrite <- app_assoc. reflexivity.
  - intros c rest -> ->. rewrite <- app_assoc. reflexivity.
Qed.

Lemma api_analyze_upstream_failure_witness :
  fst (api_analyze Faulty.raising
         (Demo.post (VDict [(u "text", VStr (u "Howl"))])) [])
  = Ret (jsonify (error_body (u "GPT analysis failed.")) 500).
Proof.
  assert (strip (u "Howl") <> []) as Hs by (vm_compute; discriminate).
  destruct (api_analyze_upstream_failure Faulty.raising
              (Demo.post (VDict [(u "text", VStr (u "Howl"))]))
              [(u "text", VStr (u "Howl"))] (u "Howl") []
              eq_refl eq_refl Hs) as [Hraise _].
  rewrite (Hraise eq_refl). reflexivity.
Defined.

(** For an object body, status 400 is kept for a missing or blank
    [text]: POST /api/analyze answers 400 only when [text] is missing,
    empty or whitespace. *)
Theorem api_analyze_400_only_if_blank w request d log r log' :
  json_body request = Some (VDict d) ->
  api_analyze w request log = (Ret r, log') ->
  status r = 400 ->
  assoc (u "text") d = None
  \/ exists s, assoc (u "text") d = Some (VStr s)
               /\ forallb isspace s = true.
Proof.
  intros Hb H Hst.
  destruct (assoc (u "text") d) as [v|] eqn:Ht; [|now left].
  right.
  assert (exists s, v = VStr s) as [s ->].
  { pose proof (json_body_parsed _ _ Hb) as Hp.
    destruct v; eauto;
      unfold api_analyze, get_json, get, strip_method, bind, of_option, ret
        in H; rewrite Hp, Ht in H; discriminate H. }
  exists s. split; [reflexivity|]. apply strip_blank.
  destruct (strip s) as [|c t] eqn:E; [reflexivity|].
  assert (strip s <> []) as Hs by (rewrite E; discriminate).
  rewrite (api_analyze_outcome w request d s log Hb Ht Hs) in H.
  destruct (analyze_with_gpt w (strip s) (field d (u "act"))
              (field d (u "scene")) log) as [[result|e] log''];
    inversion H; subst; discriminate Hst.
Qed.

Lemma api_analyze_400_only_if_blank_witness :
  assoc (u "text") [(u "act", VStr (u "3"))] = None
  \/ exists s, assoc (u "text") [(u "act", VStr (u "3"))] = Some (VStr s)
               /\ forallb isspace s = true.
Proof.
  apply (api_analyze_400_only_if_blank (Demo.answering None)
           (Demo.post (VDict [(u "act", VStr (u "3"))]))
           [(u "act", VStr (u "3"))] []
           (jsonify (error_body (u "No text provided.")) 400) []);
    reflexivity.
Defined.

(** POST /api/analyze stops before doing anything, with an exception
    that leaves the view, in these cases: [BadRequest] when the body is
    not JSON, [RecursionError] when the body is JSON nested too deep
    for the parser, [AttributeError] when the body is parsed but is not
    an object, and [AttributeError] when [text] is there but is not a
    string (a number, a boolean, null, a list, an object).  Nothing is
    printed and the provider is not called. *)
Theorem api_analyze_malformed_raises w request log :
  (json_parse request = NotJson ->
   api_analyze w request log = (Raise BadRequest, log))
  /\ (forall v, json_parse request = TooDeep v ->
                api_analyze w request log = (Raise RecursionError, log))
  /\ (forall v, json_body request = Some v -> is_dict v = false ->
                api_analyze w request log = (Raise AttributeError, log))
  /\ (forall d v, json_body request = Some (VDict d) ->
                  assoc (u "text") d = Some v ->
                  (forall s, v <> VStr s) ->
                  api_analyze w request log = (Raise AttributeError, log)).
Proof.
  unfold api_analyze, get_json, get, strip_method, bind, of_option, ret, raise.
  split; [|split; [|split]].
  - intros ->. reflexivity.
  - intros v ->. reflexivity.
  - intros v Hb Hv. apply json_body_parsed in Hb. rewrite Hb.
    destruct v; try discriminate Hv; reflexivity.
  - intros d v Hb Ht Hv. apply json_body_parsed in Hb. rewrite Hb, Ht.
    destruct v; try reflexivity.
    exfalso. exact (Hv s eq_refl).
Qed.

Lemma api_analyze_malformed_raises_witness :
  api_analyze (Demo.answering None)
    (Demo.post (VDict [(u "text", VNone)])) []
  = (Raise AttributeError, []).
Proof.
  refine (proj2 (proj2 (proj2
            (api_analyze_malformed_raises (Demo.answering None)
               (Demo.post (VDict [(u "text", VNone)])) [])))
            [(u "text", VNone)] VNone eq_refl eq_refl _).
  intros s. discriminate.
Defined.

Lemma api_analyze_json_on_string_text_witness :
  exists code v,
    serve api_analyze Faulty.raising
      (Demo.post (VDict [(u "text", VStr (u "Howl"))]))
    = JsonReply code v
    /\ In code [200; 400; 500].
Proof.
  apply (api_analyze_json_on_string_text Faulty.raising
           (Demo.post (VDict [(u "text", VStr (u "Howl"))]))
           [(u "text", VStr (u "Howl"))]).
  - reflexivity.
  - right. exists (u "Howl"). reflexivity.
Defined.

(** ** Identifiers of any type in the prompt *)

(** The context line takes an identifier by its truth value: one that
    is falsy (null, false, the number zero, an empty string, list or
    object) counts as absent, whatever its type, and when both are
    falsy the prompt has no context line. *)
Theorem falsy_identifier_is_absent w text act scene :
  truthy act = false ->
  context_str w act scene = context_str w VNone scene
  /\ context_str w scene act = context_str w scene VNone
  /\ (truthy scene = false ->
      context_str w act scene = []
      /\ prompt w text act scene
         = prompt_opening ++ prompt_rubric
           ++ dq ++ dq ++ dq ++ text ++ dq ++ dq ++ dq ++ prompt_closing).
Proof.
  intros Ha. unfold prompt, context_str, context_bits. rewrite Ha.
  cbn [truthy app]. split; [reflexivity|]. split; [reflexivity|].
  intros Hs. rewrite Hs. split; reflexivity.
Qed.

Lemma falsy_identifier_is_absent_witness :
  context_str (Demo.answering None) (VInt 0) (VStr (u "4"))
  = u "Context: this passage is from King Lear, Scene 4." ++ nl.
Proof.
  rewrite (proj1 (falsy_identifier_is_absent (Demo.answering None) []
                    (VInt 0) (VStr (u "4")) eq_refl)).
  reflexivity.
Defined.
